(** * Bookclub Jeopardy: the room state machine and the buzz race of [app.js]

    A shallow embedding of [src/app.js], the single-page client (host and
    players) of a Jeopardy game whose shared state is one room document per
    game in the Firebase Realtime Database, and of the part of the database
    the client relies on.

    - The room document is a typed record; [null] fields are [option]s.
    - A client function keeps its name and is a computation in the monad [M],
      which threads the client's world (the database, the log of database
      calls, [appState], the DOM properties the code reads back, the clocks)
      and completes normally, by [return;], or by a thrown error.
    - A database call takes effect in one atomic step and is echoed at once
      to the caller's own listener; the other clients receive the new value
      when their [value_event] is delivered, so their snapshots can be stale.
    - A client handles one event to completion.  In every [async] function
      the statements after the last [await] are local to the client, so no
      other client's write can fall between two database calls of one
      handler, [joinRoomAsPlayer]'s existence check apart.
    - A click reaches its listener only on an element that can deliver it:
      a tile that exists, the clue card once it has a handler, the buzz button
      while it is not disabled.
    - [openClueModal] lacks a closing brace in the file; it is read with the
      brace supplied at its end, so that every other function is what its own
      text says.
    - Numbers are integers: the code adds and compares clocks, scores and
      clue values, and divides a difference of clocks by 1000.
    - Of the text written to the page, the countdown ([updateTimerUI]) and
      the line under the buzz button are given, each as the text written.
      Left out: the screens and the room pill, the labels and scores
      [updateAllUI] writes, the restyling of used tiles, the join form, and
      [ensureTimerLoop], which only starts the timer whose ticks are the
      [timer_tick] events. *)

From stdpp Require Import gmap strings list fin_maps pretty sorting.
From Stdlib Require Import ZArith Ascii.

Local Open Scope Z_scope.

(** ** Values of the room document *)

(** [phase: "board" | "question" | "answer"] *)
Inductive Phase := Board | Question | Answer.

(** [teamId: "team1" | "team2"] *)
Inductive TeamId := team1 | team2.

(** [mode: "host" | "player"] *)
Inductive Mode := host | player.

(** A time stamp as the client writes it: the placeholder
    [firebase.database.ServerValue.TIMESTAMP], which the server replaces by
    its own clock when the write is committed, or a number of milliseconds. *)
Inductive TimeVal := TIMESTAMP | Millis (ms : Z).

#[global] Instance Phase_eq_dec : EqDecision Phase.
Proof. solve_decision. Defined.
#[global] Instance TeamId_eq_dec : EqDecision TeamId.
Proof. solve_decision. Defined.
#[global] Instance Mode_eq_dec : EqDecision Mode.
Proof. solve_decision. Defined.
#[global] Instance TimeVal_eq_dec : EqDecision TimeVal.
Proof. solve_decision. Defined.

(** [teams/teamN: { name, score }]; [score] can be absent from a snapshot. *)
Record Team := { team_name : string; score : option Z }.

Record Teams := { of_team1 : Team; of_team2 : Team }.

(** [buzz: { firstBuzzTeam, firstBuzzAt }], [null] meaning absent. *)
Record Buzz := { firstBuzzTeam : option TeamId; firstBuzzAt : option TimeVal }.

(** [timer: { durationSec, endAtMs }] *)
Record Timer := { durationSec : option Z; endAtMs : option Z }.

(** [players/<id>: { name, teamId, joinedAt }] *)
Record Player := {
  player_name : string;
  player_team : option TeamId;
  joinedAt : TimeVal
}.

(** The room document stored under [rooms/<code>]. *)
Record Room := {
  createdAt : TimeVal;
  phase : Phase;
  activeClueKey : option string;
  teams : Teams;
  buzz : Buzz;
  timer : Timer;
  boardUsed : gmap string bool;
  players : gmap string Player
}.

(** ** JavaScript truthiness, [||] and [??] on the values above *)

(** A string is falsy when it is empty; an absent one is falsy too. *)
Definition truthy_string (s : string) : bool := negb (String.eqb s "").

Definition truthy_key (k : option string) : bool :=
  match k with Some s => truthy_string s | None => false end.

(** A number is falsy when it is [0] (or absent). *)
Definition truthy_num (n : option Z) : bool :=
  match n with Some z => negb (z =? 0) | None => false end.

(** The team identifiers are the non-empty strings ["team1"] and ["team2"]. *)
Definition truthy_team (t : option TeamId) : bool :=
  match t with Some _ => true | None => false end.

Definition truthy_flag (b : option bool) : bool :=
  match b with Some b => b | None => false end.

(** An object is truthy; [null] and [undefined] are not. *)
Definition truthy_obj {A} (x : option A) : bool :=
  match x with Some _ => true | None => false end.

(** [cur || 0] on a number *)
Definition or_zero (cur : option Z) : Z :=
  if truthy_num cur then default 0 cur else 0.

(** [x ?? d] *)
Definition nullish {A} (x : option A) (d : A) : A := default d x.

(** ** The question bank [questions.json] *)

(** An absent [title], [question], [answer] is represented by the empty
    string and an absent [categories] or [clues] by the empty list: the
    checks of [loadQuestions] treat the two alike. *)
Record Clue := { value : Z; question : string; answer : string }.

Record Category := { title : string; clues : list Clue }.

Record Questions := { categories : list Category }.

(** What [fetch("questions.json")] resolved to: [res.ok] and the parsed
    body. *)
Record Response := { res_ok : bool; res_json : Questions }.

(** An entry of the board index: [{ ci, ...clue, categoryTitle }]. *)
Record IndexedClue := { ci : Z; the_clue : Clue; categoryTitle : string }.

(** [`c${ci}_v${value}`] *)
Definition clueKey (ci v : Z) : string :=
  "c" +:+ pretty ci +:+ "_v" +:+ pretty v.

(** [[100,200,300,400,500]] *)
Definition VALUES : list Z := [100; 200; 300; 400; 500].

(** ** Partial updates of the room document *)

(** One entry of the object given to [roomRef.update({...})]: a path under
    the room and the value written there. *)
Inductive PathWrite :=
| phase_to (p : Phase)
| activeClueKey_to (k : option string)
| buzz_firstBuzzTeam_to (t : option TeamId)
| buzz_firstBuzzAt_to (v : option TimeVal)
| timer_endAtMs_to (v : option Z)
| boardUsed_to (key : string) (b : bool).

Definition set_phase (p : Phase) (d : Room) : Room :=
  {| createdAt := createdAt d; phase := p; activeClueKey := activeClueKey d;
     teams := teams d; buzz := buzz d; timer := timer d;
     boardUsed := boardUsed d; players := players d |}.

Definition set_activeClueKey (k : option string) (d : Room) : Room :=
  {| createdAt := createdAt d; phase := phase d; activeClueKey := k;
     teams := teams d; buzz := buzz d; timer := timer d;
     boardUsed := boardUsed d; players := players d |}.

Definition set_teams (t : Teams) (d : Room) : Room :=
  {| createdAt := createdAt d; phase := phase d; activeClueKey := activeClueKey d;
     teams := t; buzz := buzz d; timer := timer d;
     boardUsed := boardUsed d; players := players d |}.

Definition set_buzz (b : Buzz) (d : Room) : Room :=
  {| createdAt := createdAt d; phase := phase d; activeClueKey := activeClueKey d;
     teams := teams d; buzz := b; timer := timer d;
     boardUsed := boardUsed d; players := players d |}.

Definition set_timer (t : Timer) (d : Room) : Room :=
  {| createdAt := createdAt d; phase := phase d; activeClueKey := activeClueKey d;
     teams := teams d; buzz := buzz d; timer := t;
     boardUsed := boardUsed d; players := players d |}.

Definition set_boardUsed (u : gmap string bool) (d : Room) : Room :=
  {| createdAt := createdAt d; phase := phase d; activeClueKey := activeClueKey d;
     teams := teams d; buzz := buzz d; timer := timer d;
     boardUsed := u; players := players d |}.

Definition set_players (p : gmap string Player) (d : Room) : Room :=
  {| createdAt := createdAt d; phase := phase d; activeClueKey := activeClueKey d;
     teams := teams d; buzz := buzz d; timer := timer d;
     boardUsed := boardUsed d; players := p |}.

(** The server resolves the time-stamp placeholder at commit time. *)
Definition resolve (server_now : Z) (v : TimeVal) : TimeVal :=
  match v with TIMESTAMP => Millis server_now | Millis ms => Millis ms end.

Definition resolve_buzz (server_now : Z) (b : Buzz) : Buzz :=
  {| firstBuzzTeam := firstBuzzTeam b;
     firstBuzzAt := resolve server_now <$> firstBuzzAt b |}.

Definition resolve_room (server_now : Z) (d : Room) : Room :=
  {| createdAt := resolve server_now (createdAt d); phase := phase d;
     activeClueKey := activeClueKey d; teams := teams d;
     buzz := resolve_buzz server_now (buzz d); timer := timer d;
     boardUsed := boardUsed d; players := players d |}.

Definition write_path (server_now : Z) (pw : PathWrite) (d : Room) : Room :=
  match pw with
  | phase_to p => set_phase p d
  | activeClueKey_to k => set_activeClueKey k d
  | buzz_firstBuzzTeam_to t =>
      set_buzz {| firstBuzzTeam := t; firstBuzzAt := firstBuzzAt (buzz d) |} d
  | buzz_firstBuzzAt_to v =>
      set_buzz {| firstBuzzTeam := firstBuzzTeam (buzz d);
                  firstBuzzAt := resolve server_now <$> v |} d
  | timer_endAtMs_to v =>
      set_timer {| durationSec := durationSec (timer d); endAtMs := v |} d
  | boardUsed_to key b => set_boardUsed (<[key := b]> (boardUsed d)) d
  end.

(** [update] writes all the paths of its argument in one atomic step. *)
Definition apply_patch (server_now : Z) (patch : list PathWrite) (d : Room) : Room :=
  foldl (fun d pw => write_path server_now pw d) d patch.

Definition teamId_string (t : TeamId) : string :=
  match t with team1 => "team1" | team2 => "team2" end.

Definition team_of (t : TeamId) (ts : Teams) : Team :=
  match t with team1 => of_team1 ts | team2 => of_team2 ts end.

Definition set_score (t : TeamId) (s : option Z) (ts : Teams) : Teams :=
  match t with
  | team1 => {| of_team1 := {| team_name := team_name (of_team1 ts); score := s |};
                of_team2 := of_team2 ts |}
  | team2 => {| of_team1 := of_team1 ts;
                of_team2 := {| team_name := team_name (of_team2 ts); score := s |} |}
  end.

(** ** Values as a transaction sees them

    The update function of a transaction is handed whatever JSON value the
    node holds and returns the JSON value to store. *)
#[local] Unset Elimination Schemes.
Inductive JsVal :=
| JNull
| JBool (b : bool)
| JNum (z : Z)
| JStr (s : string)
| JObj (fields : list (string * JsVal)).
#[local] Set Elimination Schemes.

(** [!!v] *)
Definition js_truthy (v : JsVal) : bool :=
  match v with
  | JNull => false
  | JBool b => b
  | JNum z => negb (z =? 0)
  | JStr s => truthy_string s
  | JObj _ => true
  end.

Fixpoint assoc {A} (name : string) (fields : list (string * A)) : option A :=
  match fields with
  | [] => None
  | (n, v) :: rest => if String.eqb n name then Some v else assoc name rest
  end.

(** [firebase.database.ServerValue.TIMESTAMP] *)
Definition ServerValue_TIMESTAMP : JsVal := JObj [(".sv", JStr "timestamp")].

Definition teamId_js (t : option TeamId) : JsVal :=
  match t with Some t => JStr (teamId_string t) | None => JNull end.

Definition timeVal_js (v : TimeVal) : JsVal :=
  match v with TIMESTAMP => ServerValue_TIMESTAMP | Millis ms => JNum ms end.

(** The value of the [buzz] node: [null] when it has no child, else the
    object of its children. *)
Definition js_of_buzz (b : Buzz) : JsVal :=
  match
    (match firstBuzzTeam b with
     | Some t => [("firstBuzzTeam", JStr (teamId_string t))]
     | None => []
     end) ++
    (match firstBuzzAt b with
     | Some v => [("firstBuzzAt", timeVal_js v)]
     | None => []
     end)
  with
  | [] => JNull
  | fields => JObj fields
  end.

(** The [buzz] node after a value is written to it, the server putting its
    clock in place of the time-stamp placeholder. *)
Definition buzz_of_js (server_now : Z) (v : JsVal) : Buzz :=
  match v with
  | JObj fields =>
      {| firstBuzzTeam :=
           match assoc "firstBuzzTeam" fields with
           | Some (JStr "team1") => Some team1
           | Some (JStr "team2") => Some team2
           | _ => None
           end;
         firstBuzzAt :=
           match assoc "firstBuzzAt" fields with
           | Some (JNum ms) => Some (Millis ms)
           | Some (JObj [(".sv", JStr "timestamp")]) => Some (Millis server_now)
           | _ => None
           end |}
  | _ => {| firstBuzzTeam := None; firstBuzzAt := None |}
  end.

(** ** The client: [appState], the DOM properties read back, the world *)

Record AppState := {
  mode : option Mode;
  roomCode : option string;
  teamId : option TeamId;
  playerName : option string;
  questions : option Questions;
  boardIndex : option (gmap string IndexedClue);
  (** the path [roomRef] points to *)
  roomRef : option string;
  (** one closure per registered listener, each detaching the handler from
      the path recorded here *)
  unsub : list string;
  roomData : option Room;
  (** [appState.activeClueKey], the key of the clue shown in the modal *)
  modal_activeClueKey : option string;
  activeClue : option IndexedClue
}.

Record Dom := {
  clueModal_hidden : bool;
  clueInner_flipped : bool;
  (** whether [$("clueCard").onclick] has been assigned *)
  clueCard_onclick : bool;
  btnBuzz_disabled : bool;
  (** the keys of the tiles [renderBoard] created, each with its click
      listener *)
  board_tiles : list string
}.

(** A call of the database API, as the client issues it. *)
Inductive StoreCall :=
| call_get (path : string)
| call_set (path : string)
| call_update (path : string) (patch : list PathWrite)
| call_transaction (path : string)
| call_remove (path : string).

Record World := {
  db : gmap string Room;
  (** the calls issued so far, latest first *)
  store_log : list StoreCall;
  app : AppState;
  dom : Dom;
  (** [Date.now()] *)
  date_now : Z;
  (** the last value of [.info/serverTimeOffset], [0] when falsy *)
  serverOffsetMs : Z;
  (** the server's clock, used for [ServerValue.TIMESTAMP] *)
  server_now : Z;
  (** what [fetch("questions.json")] resolves to *)
  questions_json : Response;
  (** [Math.floor(1000 + Math.random() * 9000)] *)
  random_n : Z;
  (** [uid()], the identifier kept in [localStorage] *)
  device_id : string
}.

Definition initial_appState : AppState :=
  {| mode := None; roomCode := None; teamId := None; playerName := None;
     questions := None; boardIndex := None; roomRef := None; unsub := [];
     roomData := None; modal_activeClueKey := None; activeClue := None |}.

Definition with_db (f : gmap string Room → gmap string Room) (w : World) : World :=
  {| db := f (db w); store_log := store_log w; app := app w; dom := dom w;
     date_now := date_now w; serverOffsetMs := serverOffsetMs w;
     server_now := server_now w;
     questions_json := questions_json w; random_n := random_n w;
     device_id := device_id w |}.

Definition with_app (f : AppState → AppState) (w : World) : World :=
  {| db := db w; store_log := store_log w; app := f (app w); dom := dom w;
     date_now := date_now w; serverOffsetMs := serverOffsetMs w;
     server_now := server_now w;
     questions_json := questions_json w; random_n := random_n w;
     device_id := device_id w |}.

Definition with_dom (f : Dom → Dom) (w : World) : World :=
  {| db := db w; store_log := store_log w; app := app w; dom := f (dom w);
     date_now := date_now w; serverOffsetMs := serverOffsetMs w;
     server_now := server_now w;
     questions_json := questions_json w; random_n := random_n w;
     device_id := device_id w |}.

Definition log_call (c : StoreCall) (w : World) : World :=
  {| db := db w; store_log := c :: store_log w; app := app w; dom := dom w;
     date_now := date_now w; serverOffsetMs := serverOffsetMs w;
     server_now := server_now w; questions_json := questions_json w;
     random_n := random_n w; device_id := device_id w |}.

Definition set_roomData (r : option Room) (a : AppState) : AppState :=
  {| mode := mode a; roomCode := roomCode a; teamId := teamId a;
     playerName := playerName a; questions := questions a;
     boardIndex := boardIndex a; roomRef := roomRef a; unsub := unsub a;
     roomData := r; modal_activeClueKey := modal_activeClueKey a;
     activeClue := activeClue a |}.

Definition set_unsub (u : list string) (a : AppState) : AppState :=
  {| mode := mode a; roomCode := roomCode a; teamId := teamId a;
     playerName := playerName a; questions := questions a;
     boardIndex := boardIndex a; roomRef := roomRef a; unsub := u;
     roomData := roomData a; modal_activeClueKey := modal_activeClueKey a;
     activeClue := activeClue a |}.

Definition set_modal_activeClueKey (k : option string) (a : AppState) : AppState :=
  {| mode := mode a; roomCode := roomCode a; teamId := teamId a;
     playerName := playerName a; questions := questions a;
     boardIndex := boardIndex a; roomRef := roomRef a; unsub := unsub a;
     roomData := roomData a; modal_activeClueKey := k;
     activeClue := activeClue a |}.

Definition set_activeClue (c : option IndexedClue) (a : AppState) : AppState :=
  {| mode := mode a; roomCode := roomCode a; teamId := teamId a;
     playerName := playerName a; questions := questions a;
     boardIndex := boardIndex a; roomRef := roomRef a; unsub := unsub a;
     roomData := roomData a; modal_activeClueKey := modal_activeClueKey a;
     activeClue := c |}.

Definition set_clueModal_hidden (b : bool) (d : Dom) : Dom :=
  {| clueModal_hidden := b; clueInner_flipped := clueInner_flipped d;
     clueCard_onclick := clueCard_onclick d;
     btnBuzz_disabled := btnBuzz_disabled d; board_tiles := board_tiles d |}.

Definition set_clueInner_flipped (b : bool) (d : Dom) : Dom :=
  {| clueModal_hidden := clueModal_hidden d; clueInner_flipped := b;
     clueCard_onclick := clueCard_onclick d;
     btnBuzz_disabled := btnBuzz_disabled d; board_tiles := board_tiles d |}.

Definition set_clueCard_onclick (b : bool) (d : Dom) : Dom :=
  {| clueModal_hidden := clueModal_hidden d;
     clueInner_flipped := clueInner_flipped d; clueCard_onclick := b;
     btnBuzz_disabled := btnBuzz_disabled d; board_tiles := board_tiles d |}.

Definition set_btnBuzz_disabled (b : bool) (d : Dom) : Dom :=
  {| clueModal_hidden := clueModal_hidden d;
     clueInner_flipped := clueInner_flipped d;
     clueCard_onclick := clueCard_onclick d;
     btnBuzz_disabled := b; board_tiles := board_tiles d |}.

Definition set_board_tiles (t : list string) (d : Dom) : Dom :=
  {| clueModal_hidden := clueModal_hidden d;
     clueInner_flipped := clueInner_flipped d;
     clueCard_onclick := clueCard_onclick d;
     btnBuzz_disabled := btnBuzz_disabled d; board_tiles := t |}.

(** ** The monad of client code *)

(** How a statement finishes: normally with a value, by [return;], or by a
    thrown error. *)
Inductive Completion (A : Type) :=
| Normal (a : A)
| Return_
| Throw (message : string).

Arguments Normal {A} a.
Arguments Return_ {A}.
Arguments Throw {A} message.

Definition M (A : Type) : Type := World → Completion A * World.

#[global] Instance M_ret : MRet M := λ A a w, (Normal a, w).

(** Sequencing stops at a [return] and at a [throw]; the world reached so
    far is kept. *)
#[global] Instance M_bind : MBind M := λ A B f m w,
  match m w with
  | (Normal a, w') => f a w'
  | (Return_, w') => (Return_, w')
  | (Throw e, w') => (Throw e, w')
  end.

Definition return_ {A} : M A := λ w, (Return_, w).

Definition throw {A} (message : string) : M A := λ w, (Throw message, w).

(** The body of a function: a [return;] inside it ends the call. *)
Definition fn (body : M unit) : M unit := λ w,
  match body w with
  | (Return_, w') => (Normal (), w')
  | r => r
  end.

Definition get_world : M World := λ w, (Normal w, w).

Definition modify (f : World → World) : M unit := λ w, (Normal (), f w).

(** [if (c) return;] *)
Definition return_if (c : bool) : M unit :=
  if c then return_ else mret ().

(** [if (!x) return;] then use [x] *)
Definition truthy_or_return {A} (x : option A) : M A :=
  match x with Some a => mret a | None => return_ end.

(** [x.f] throws when [x] is [null] *)
Definition deref {A} (what : string) (x : option A) : M A :=
  match x with
  | Some a => mret a
  | None => throw ("TypeError: " +:+ what +:+ " is null")
  end.

(** The world after running [m], and how it completed. *)
Definition exec {A} (m : M A) (w : World) : World := (m w).2.
Definition completion {A} (m : M A) (w : World) : Completion A := (m w).1.

(** [nowServerMs()] *)
Definition nowServerMs : M Z := λ w, (Normal (date_now w + serverOffsetMs w), w).

(** [roomPath(code)] *)
Definition roomPath (code : string) : string := "rooms/" +:+ code.

(** [randomCode()] *)
Definition randomCode : M string := λ w, (Normal ("JEP-" +:+ pretty (random_n w)), w).

(** Code without access to the world: the validation of the question bank
    and the update functions handed to transactions. *)
#[global] Instance Completion_ret : MRet Completion := λ A a, Normal a.

#[global] Instance Completion_bind : MBind Completion := λ A B f m,
  match m with
  | Normal a => f a
  | Return_ => Return_
  | Throw e => Throw e
  end.

(** [for (const x of xs) body] *)
Fixpoint for_of {A} (xs : list A) (body : A → Completion unit) : Completion unit :=
  match xs with
  | [] => Normal ()
  | x :: rest => body x ;; for_of rest body
  end.

(** ** Load [questions.json] *)

(** [c.clues.map(x => x.value).sort((a,b)=>a-b).join(",")]: the values in
    ascending order, printed in decimal and separated by commas. *)
Definition values_joined (c : Category) : string :=
  String.concat "," (pretty <$> merge_sort Z.le (value <$> clues c)).

Definition loadQuestions : M Questions := λ w,
  let res := questions_json w in
  (if negb (res_ok res) then Throw "Failed to load questions.json" else
   let data := res_json res in
   (if negb (bool_decide (length (categories data) = 5%nat))
    then Throw "questions.json must contain exactly 5 categories"
    else Normal ()) ;;
   for_of (categories data) (λ c,
     (if negb (truthy_string (title c))
         || negb (bool_decide (length (clues c) = 5%nat))
      then Throw "Each category must have a title and exactly 5 clues"
      else Normal ()) ;;
     (if negb (String.eqb (values_joined c) "100,200,300,400,500")
      then Throw "Each category must have clue values 100,200,300,400,500"
      else Normal ()) ;;
     for_of (clues c) (λ clue,
       if negb (truthy_string (question clue)) || negb (truthy_string (answer clue))
       then Throw "Each clue needs question and answer"
       else Normal ())) ;;
   Normal data, w).

(** [buildBoardIndex]: a [Map] from [c{ci}_v{value}] to the clue; a later
    [map.set] on the same key replaces the earlier one. *)
Definition buildBoardIndex (qs : Questions) : gmap string IndexedClue :=
  foldl (λ map '(i, cat),
           foldl (λ map clue,
                    <[clueKey (Z.of_nat i) (value clue) :=
                        {| ci := Z.of_nat i; the_clue := clue;
                           categoryTitle := title cat |}]> map)
                 map (clues cat))
        ∅ (imap (λ i cat, (i, cat)) (categories qs)).

(** ** Room schema *)

Definition makeInitialBoardState : gmap string bool :=
  foldl (λ used ci,
           foldl (λ used v, <[clueKey ci v := false]> used) used VALUES)
        ∅ [0; 1; 2; 3; 4].

(** The document [createRoomAsHost] builds. *)
Definition initial : Room :=
  {| createdAt := TIMESTAMP;
     phase := Board;
     activeClueKey := None;
     teams := {| of_team1 := {| team_name := "Team 1"; score := Some 0 |};
                 of_team2 := {| team_name := "Team 2"; score := Some 0 |} |};
     buzz := {| firstBuzzTeam := None; firstBuzzAt := None |};
     timer := {| durationSec := Some 20; endAtMs := None |};
     boardUsed := makeInitialBoardState;
     players := ∅ |}.

(** ** Clue modal (host only) *)

Definition closeClueModal : M unit :=
  modify (with_dom (set_clueModal_hidden true)) ;;
  modify (with_app (set_modal_activeClueKey None)) ;;
  modify (with_app (set_activeClue None)) ;;
  modify (with_dom (set_clueInner_flipped false)).

(** Reading an identifier that no enclosing scope declares. *)
Definition unbound_identifier {A} (x : string) : M A :=
  throw ("ReferenceError: " +:+ x +:+ " is not defined").

(** [openClueModal], lines 475-516.  The brace that opens the guard's block
    is never closed after its [return;]: the closing brace of line 516 closes
    that block and no brace closes the function, so the text of the file does
    not parse as it stands.  The embedding reads the function with the
    missing brace supplied after line 516, which leaves every other function
    as its own text gives it.  The statements that populate and show the
    modal, and the assignment of [$("clueCard").onclick], are then the rest of
    the guard's block and follow its [return;].  They also read [clue], which
    no scope declares.  When the guard is false the block is skipped and the
    call ends. *)
Definition openClueModal (clueKey : string) (ph : Phase) : M unit := fn (
  w ← get_world;
  if negb (bool_decide (mode (app w) = Some host))
     || match roomData (app w) with
        | None => true
        | Some room => negb (truthy_key (activeClueKey room))
        end
  then
    (return_ : M unit) ;;
    modify (with_app (set_modal_activeClueKey (Some clueKey))) ;;
    clue ← unbound_identifier "clue";
    modify (with_app (set_activeClue (Some clue))) ;;
    modify (with_dom (set_clueInner_flipped false)) ;;
    modify (with_dom (set_clueModal_hidden false)) ;;
    modify (with_dom (set_clueCard_onclick true))
  else mret ()).

(** ** UI updates from room state *)

Definition updatePlayerBuzzButton : M unit := fn (
  w ← get_world;
  return_if (negb (bool_decide (mode (app w) = Some player))) ;;
  room ← truthy_or_return (roomData (app w));
  now ← nowServerMs;
  let endAt := endAtMs (timer room) in
  let inTime := truthy_num endAt && bool_decide (now < default 0 endAt) in
  let nobodyBuzzed := negb (truthy_team (firstBuzzTeam (buzz room))) in
  let enabled := bool_decide (phase room = Question) && inTime && nobodyBuzzed in
  modify (with_dom (set_btnBuzz_disabled (negb enabled)))).

(** [updateAllUI], without the team names, scores and buzz text it writes to
    the page and without [updateBoardUsedUI], which only restyles the tiles. *)
Definition updateAllUI : M unit := fn (
  w ← get_world;
  room ← truthy_or_return (roomData (app w));
  (if bool_decide (mode (app w) = Some host) then
     let active := activeClueKey room in
     (if negb (bool_decide (phase room = Board)) && truthy_key active then
        let clue := boardIndex (app w) ≫= λ index, index !! default "" active in
        if truthy_obj clue && clueModal_hidden (dom w) then
          openClueModal (default "" active) (phase room) ;;
          (if bool_decide (phase room = Answer)
           then modify (with_dom (set_clueInner_flipped true)) else mret ())
        else if negb (clueModal_hidden (dom w)) then
          (if bool_decide (phase room = Answer)
           then modify (with_dom (set_clueInner_flipped true)) else mret ())
        else mret ()
      else mret ()) ;;
     w ← get_world;
     if bool_decide (phase room = Board) && negb (clueModal_hidden (dom w))
     then closeClueModal else mret ()
   else mret ()) ;;
  updatePlayerBuzzButton).

(** ** Subscribe to room updates *)

(** The listener [subscribeToRoom] registers: [handler(snap)]. *)
Definition handler (snap_val : option Room) : M unit := fn (
  modify (with_app (set_roomData snap_val)) ;;
  return_if (negb (truthy_obj snap_val)) ;;
  updateAllUI).

(** The database calls the listeners registered on [path] with the value now
    stored there.  An error thrown by a listener does not reach the code
    that caused the event. *)
Definition notify (path : string) : M unit := λ w,
  if bool_decide (path ∈ unsub (app w))
  then (Normal (), exec (handler (db w !! path)) w)
  else (Normal (), w).

(** ** The database API

    Every call takes effect in one atomic step on the stored document and
    is echoed to the caller's own listeners.  A partial update or a
    transaction addressed to a path that has no document (the room was
    removed) changes nothing here: the database would keep the written
    children alone, which is no room document and which [Room] cannot
    hold. *)

(** [db.ref(path).get()] *)
Definition ref_get (path : string) : M (option Room) := λ w,
  (Normal (db w !! path), log_call (call_get path) w).

(** [db.ref(path).set(doc)] *)
Definition ref_set (path : string) (doc : Room) : M unit :=
  modify (log_call (call_set path)) ;;
  modify (λ w, with_db (insert path (resolve_room (server_now w) doc)) w) ;;
  notify path.

(** [db.ref(path).update(patch)] *)
Definition ref_update (path : string) (patch : list PathWrite) : M unit :=
  modify (log_call (call_update path patch)) ;;
  modify (λ w, with_db (alter (apply_patch (server_now w) patch) path) w) ;;
  notify path.

(** [db.ref(path).remove()] *)
Definition ref_remove (path : string) : M unit :=
  modify (log_call (call_remove path)) ;;
  modify (with_db (delete path)) ;;
  notify path.

(** [db.ref(path).child("buzz").transaction(update)]: the value committed is
    [update] applied to the value stored at commit time; [update] returning
    nothing aborts the transaction and leaves the store as it is. *)
Definition buzz_transaction (path : string)
    (update : JsVal → Completion JsVal) : M unit :=
  modify (log_call (call_transaction (path +:+ "/buzz"))) ;;
  w ← get_world;
  match db w !! path ≫= λ d, Some (update (js_of_buzz (buzz d))) with
  | Some (Normal v) =>
      modify (with_db (alter (set_buzz (buzz_of_js (server_now w) v)) path)) ;;
      notify path
  | Some (Throw e) => throw e
  | Some Return_ | None => mret ()
  end.

(** [db.ref(path).child(`teams/${teamId}/score`).transaction(update)] *)
Definition score_transaction (path : string) (t : TeamId)
    (update : option Z → Z) : M unit :=
  modify (log_call (call_transaction
    (path +:+ "/teams/" +:+ teamId_string t +:+ "/score"))) ;;
  modify (with_db (alter (λ d,
    set_teams (set_score t (Some (update (score (team_of t (teams d))))) (teams d)) d)
    path)) ;;
  notify path.

(** [db.ref(path).child(`players/${playerId}`).set(p)] *)
Definition player_set (path playerId : string) (p : Player) : M unit :=
  modify (log_call (call_set (path +:+ "/players/" +:+ playerId))) ;;
  modify (λ w, with_db (alter (λ d,
    set_players
      (<[playerId := {| player_name := player_name p;
                        player_team := player_team p;
                        joinedAt := resolve (server_now w) (joinedAt p) |}]>
         (players d)) d) path) w) ;;
  notify path.

Definition clearListeners : M unit :=
  modify (with_app (set_unsub [])).

(** [ref.on("value", handler)] registers the listener and delivers the
    current value to it. *)
Definition subscribeToRoom : M unit := fn (
  clearListeners ;;
  w ← get_world;
  ref ← truthy_or_return (roomRef (app w));
  modify (with_app (set_unsub (ref :: unsub (app w)))) ;;
  notify ref).

(** A later delivery of the stored value to the registered listener. *)
Definition deliver_snapshot : M unit :=
  w ← get_world;
  match unsub (app w) with
  | [] => mret ()
  | ref :: _ => notify ref
  end.

(** ** Rendering board (host) *)

Definition renderBoard : M unit := fn (
  w ← get_world;
  return_if (negb (truthy_obj (questions (app w)))) ;;
  modify (with_dom (set_board_tiles
    (v ← VALUES; ci ← [0; 1; 2; 3; 4]; [clueKey ci v])))).

(** ** Create room (host) *)

Definition createRoomAsHost : M unit := fn (
  questions ← loadQuestions;
  code ← randomCode;
  ref_set (roomPath code) initial ;;
  modify (with_app (λ a,
    {| mode := Some host; roomCode := Some code; teamId := teamId a;
       playerName := playerName a; questions := Some questions;
       boardIndex := Some (buildBoardIndex questions);
       roomRef := Some (roomPath code); unsub := unsub a;
       roomData := roomData a; modal_activeClueKey := modal_activeClueKey a;
       activeClue := activeClue a |})) ;;
  renderBoard ;;
  subscribeToRoom).

(** ** Join as player *)

Definition joinRoomAsPlayer (code : string) (team : option TeamId)
    (name : string) : M unit := fn (
  let ref := roomPath code in
  snap ← ref_get ref;
  (if negb (truthy_obj snap) then throw "Room not found. Check the code."
   else mret ()) ;;
  modify (with_app (λ a,
    {| mode := Some player; roomCode := Some code; teamId := team;
       playerName := Some (if truthy_string name then name else "Player");
       questions := questions a; boardIndex := boardIndex a;
       roomRef := Some ref; unsub := unsub a;
       roomData := roomData a; modal_activeClueKey := modal_activeClueKey a;
       activeClue := activeClue a |})) ;;
  w ← get_world;
  player_set ref (device_id w)
    {| player_name := default "Player" (playerName (app w));
       player_team := team; joinedAt := TIMESTAMP |} ;;
  subscribeToRoom).

(** ** Host tile click -> open clue *)

Definition onHostTileClick (clueKey : string) : M unit := fn (
  w ← get_world;
  room ← truthy_or_return (roomData (app w));
  return_if (truthy_flag (boardUsed room !! clueKey)) ;;
  return_if (negb (bool_decide (phase room = Board))) ;;
  index ← deref "appState.boardIndex" (boardIndex (app w));
  clue ← truthy_or_return (index !! clueKey);
  now ← nowServerMs;
  let endAt := now + nullish (durationSec (timer room)) 20 * 1000 in
  ref ← deref "appState.roomRef" (roomRef (app w));
  ref_update ref
    [ phase_to Question;
      activeClueKey_to (Some clueKey);
      buzz_firstBuzzTeam_to None;
      buzz_firstBuzzAt_to None;
      timer_endAtMs_to (Some endAt) ] ;;
  openClueModal clueKey Question).

(** ** Buzz logic (player) *)

(** [x.name]: a [TypeError] on [null], [undefined] (here [None]) when [x]
    has no such property. *)
Definition js_get (x : JsVal) (name : string) : Completion (option JsVal) :=
  match x with
  | JNull => Throw ("TypeError: Cannot read properties of null (reading '"
                    +:+ name +:+ "')")
  | JObj fields => Normal (assoc name fields)
  | _ => Normal None
  end.

(** The update function of the buzz transaction. *)
Definition buzz_update (teamId : JsVal) (current : JsVal) : Completion JsVal :=
  let current := if negb (js_truthy current) then JObj [] else current in
  firstBuzzTeam ← js_get current "firstBuzzTeam";
  if js_truthy (default JNull firstBuzzTeam) then Return_
  else Normal (JObj [ ("firstBuzzTeam", teamId);
                      ("firstBuzzAt", ServerValue_TIMESTAMP) ]).

Definition playerBuzz : M unit := fn (
  w ← get_world;
  room ← truthy_or_return (roomData (app w));
  return_if (negb (bool_decide (phase room = Question))) ;;
  let endAt := endAtMs (timer room) in
  now ← nowServerMs;
  return_if (negb (truthy_num endAt) || bool_decide (now >= default 0 endAt)) ;;
  ref ← deref "appState.roomRef" (roomRef (app w));
  buzz_transaction ref (buzz_update (teamId_js (teamId (app w))))).

(** ** Host controls *)

Definition resetBuzz : M unit := fn (
  w ← get_world;
  return_if (negb (bool_decide (mode (app w) = Some host))) ;;
  ref ← deref "appState.roomRef" (roomRef (app w));
  ref_update ref [ buzz_firstBuzzTeam_to None; buzz_firstBuzzAt_to None ]).

Definition resetTimer : M unit := fn (
  w ← get_world;
  return_if (negb (bool_decide (mode (app w) = Some host))) ;;
  let room := roomData (app w) in
  let duration := nullish (room ≫= λ r, durationSec (timer r)) 20 in
  r ← deref "room" room;
  ref ← deref "appState.roomRef" (roomRef (app w));
  if bool_decide (phase r = Question) then
    now ← nowServerMs;
    ref_update ref [ timer_endAtMs_to (Some (now + duration * 1000)) ]
  else
    ref_update ref [ timer_endAtMs_to None ]).

Definition adjustScore (t : TeamId) (delta : Z) : M unit := fn (
  w ← get_world;
  return_if (negb (bool_decide (mode (app w) = Some host))) ;;
  ref ← deref "appState.roomRef" (roomRef (app w));
  score_transaction ref t (λ cur, or_zero cur + delta)).

(** The handler [openClueModal] assigns to [$("clueCard").onclick]. *)
Definition clueCard_onclick_handler : M unit := fn (
  w ← get_world;
  return_if (negb (bool_decide (mode (app w) = Some host))) ;;
  room ← truthy_or_return (roomData (app w));
  if bool_decide (phase room = Question) then
    ref ← deref "appState.roomRef" (roomRef (app w));
    ref_update ref [ phase_to Answer ] ;;
    modify (with_dom (set_clueInner_flipped true))
  else mret ()).

Definition returnToBoardAndMarkUsed : M unit := fn (
  w ← get_world;
  return_if (negb (bool_decide (mode (app w) = Some host))) ;;
  let key := roomData (app w) ≫= activeClueKey in
  return_if (negb (truthy_key key)) ;;
  ref ← deref "appState.roomRef" (roomRef (app w));
  ref_update ref
    [ boardUsed_to (default "" key) true;
      phase_to Board;
      activeClueKey_to None;
      timer_endAtMs_to None;
      buzz_firstBuzzTeam_to None;
      buzz_firstBuzzAt_to None ] ;;
  closeClueModal).

(** ** Leave / reset app *)

Definition leaveToLanding : M unit :=
  clearListeners ;;
  modify (with_app (λ a,
    {| mode := None; roomCode := None; teamId := None; playerName := None;
       questions := None; boardIndex := None; roomRef := None;
       unsub := unsub a; roomData := None;
       modal_activeClueKey := modal_activeClueKey a;
       activeClue := activeClue a |})) ;;
  closeClueModal.

Definition endRoom : M unit := fn (
  w ← get_world;
  ref ← truthy_or_return (roomRef (app w));
  ref_remove ref ;;
  leaveToLanding).

(** ** Navigation / Buttons: the listeners the page registers *)

(** [try { body } catch (e) { ... }], the [catch] only reporting [e]. *)
Definition try_catch (body : M unit) : M unit := λ w,
  match body w with
  | (Throw e, w') => (Normal (), w')
  | r => r
  end.

Inductive Event :=
| btnCreateRoom_click
| btnJoinRoom_click (code : string) (selectedTeam : option TeamId) (name : string)
| tile_click (key : string)
| clueCard_click
| btnReturnToBoard_click
| btnResetBuzz_click
| btnTimerReset_click
| btnHostEndRoom_click
| btnAward_click (t : TeamId)
| btnPenalty_click (t : TeamId)
| btnBuzz_click
| btnLeaveRoom_click
| value_event
| timer_tick.

#[global] Instance Event_eq_dec : EqDecision Event.
Proof. solve_decision. Defined.

(** [const v = appState.activeClue?.value ?? 0;] *)
Definition activeClue_value : M Z :=
  w ← get_world;
  mret (nullish (activeClue (app w) ≫= λ c, Some (value (the_clue c))) 0).

(** The listener of each event.  A click reaches its listener only on an
    element that can deliver it: a tile that [renderBoard] created, the clue
    card once it has a handler, the buzz button while it is not disabled. *)
Definition dispatch (e : Event) : M unit :=
  match e with
  | btnCreateRoom_click => try_catch createRoomAsHost
  | btnJoinRoom_click code selectedTeam name =>
      try_catch (joinRoomAsPlayer code selectedTeam name)
  | tile_click key =>
      w ← get_world;
      if bool_decide (key ∈ board_tiles (dom w)) then onHostTileClick key
      else mret ()
  | clueCard_click =>
      w ← get_world;
      if clueCard_onclick (dom w) then clueCard_onclick_handler else mret ()
  | btnReturnToBoard_click => returnToBoardAndMarkUsed
  | btnResetBuzz_click => resetBuzz
  | btnTimerReset_click => resetTimer
  | btnHostEndRoom_click => endRoom
  | btnAward_click t => v ← activeClue_value; adjustScore t v
  | btnPenalty_click t => v ← activeClue_value; adjustScore t (- v)
  | btnBuzz_click =>
      w ← get_world;
      if btnBuzz_disabled (dom w) then mret () else try_catch playerBuzz
  | btnLeaveRoom_click => leaveToLanding
  | value_event => deliver_snapshot
  | timer_tick => updatePlayerBuzzButton
  end.

(** ** Helpers, the timer display and the buzz text

    Functions that write text to the page are given as the text they write. *)

(** [clamp(n, min, max)] *)
Definition clamp (n min max : Z) : Z := Z.max min (Z.min max n).

(** [uid()], stable per device/browser.  [rand16] stands for
    [Math.random().toString(16).slice(2)] and [now16] for
    [Date.now().toString(16)]; the result is the identifier and the
    [localStorage] the call leaves. *)
Definition uid (rand16 now16 : string) (localStorage : gmap string string)
  : string * gmap string string :=
  let key := "jeop_player_id" in
  let v := localStorage !! key in
  if negb (truthy_key v) then
    let v := "p_" +:+ rand16 +:+ now16 in
    (v, <[key := v]> localStorage)
  else (default "" v, localStorage).

(** [Math.ceil(a / b)] on integers, for [b > 0] *)
Definition ceil_div (a b : Z) : Z := - ((- a) / b).

(** [updateTimerUI]: the value is the text written to [$("timerValue")] and
    to [$("pTimerValue")]. *)
Definition updateTimerUI : M string :=
  w ← get_world;
  let room := roomData (app w) in
  let endAt := room ≫= λ r, endAtMs (timer r) in
  let duration := nullish (room ≫= λ r, durationSec (timer r)) 20 in
  remaining ←
    (if truthy_num endAt then
       now ← nowServerMs;
       mret (clamp (ceil_div (default 0 endAt - now) 1000) 0 999)
     else mret duration);
  mret (pretty remaining).

(** The text [updatePlayerBuzzButton] writes to [$("pBuzzText")], lines
    413-422, after the same early returns. *)
Definition pBuzzText : M string :=
  w ← get_world;
  return_if (negb (bool_decide (mode (app w) = Some player))) ;;
  room ← truthy_or_return (roomData (app w));
  now ← nowServerMs;
  let endAt := endAtMs (timer room) in
  let inTime := truthy_num endAt && bool_decide (now < default 0 endAt) in
  let nobodyBuzzed := negb (truthy_team (firstBuzzTeam (buzz room))) in
  if negb (bool_decide (phase room = Question)) then mret "Waiting for question…"
  else if negb inTime then mret "Time’s up."
  else if negb nobodyBuzzed then
    let t :=
      if bool_decide (firstBuzzTeam (buzz room) = Some team1)
      then (if truthy_string (team_name (of_team1 (teams room)))
            then team_name (of_team1 (teams room)) else "Team 1")
      else (if truthy_string (team_name (of_team2 (teams room)))
            then team_name (of_team2 (teams room)) else "Team 2") in
    mret (t +:+ " buzzed first.")
  else mret "Buzz is open!".

(** ** Several clients on one database *)

(** What a client keeps between events. *)
Record Client := { c_app : AppState; c_dom : Dom; c_device : string }.

(** What an event finds outside the client: the clocks, the answer to
    [fetch], the random draw. *)
Record Env := {
  e_date_now : Z;
  e_serverOffsetMs : Z;
  e_server_now : Z;
  e_questions_json : Response;
  e_random_n : Z
}.

Record System := {
  s_db : gmap string Room;
  s_log : list StoreCall;
  s_clients : list Client
}.

(** A page that has just been loaded: no room, no handler on the clue card. *)
Definition fresh_client (modal_hidden buzz_disabled : bool) (device : string)
  : Client :=
  {| c_app := initial_appState;
     c_dom := {| clueModal_hidden := modal_hidden; clueInner_flipped := false;
                 clueCard_onclick := false; btnBuzz_disabled := buzz_disabled;
                 board_tiles := [] |};
     c_device := device |}.

Definition world_of (s : System) (c : Client) (env : Env) : World :=
  {| db := s_db s; store_log := s_log s; app := c_app c; dom := c_dom c;
     date_now := e_date_now env; serverOffsetMs := e_serverOffsetMs env;
     server_now := e_server_now env; questions_json := e_questions_json env;
     random_n := e_random_n env; device_id := c_device c |}.

Definition client_of (w : World) : Client :=
  {| c_app := app w; c_dom := dom w; c_device := device_id w |}.

(** One step of the system: a page is opened, or one client handles one
    event to completion against the shared database. *)
Inductive Label :=
| page_open (modal_hidden buzz_disabled : bool) (device : string)
| client_event (i : nat) (env : Env) (e : Event).

Definition sys_do (s : System) (l : Label) : System :=
  match l with
  | page_open hidden disabled device =>
      {| s_db := s_db s; s_log := s_log s;
         s_clients := s_clients s ++ [fresh_client hidden disabled device] |}
  | client_event i env e =>
      match s_clients s !! i with
      | None => s
      | Some c =>
          let w' := exec (dispatch e) (world_of s c env) in
          {| s_db := db w'; s_log := store_log w';
             s_clients := <[i := client_of w']> (s_clients s) |}
      end
  end.

Definition run_from (s : System) (ls : list Label) : System := foldl sys_do s ls.

Definition initial_system : System :=
  {| s_db := ∅; s_log := []; s_clients := [] |}.

Definition reachable (s : System) : Prop :=
  ∃ ls, s = run_from initial_system ls.

(** What a subscriber of [path] observes of the buzz winner. *)
Definition firstBuzzTeam_at (path : string) (rooms : gmap string Room)
  : option TeamId :=
  rooms !! path ≫= λ d, firstBuzzTeam (buzz d).

(** ** Vocabulary of the properties *)

(** [m] keeps [I]: whatever way [m] completes, the world it leaves satisfies
    [I] when the world it started in did. *)
Definition keeps (I : World → Prop) {A} (m : M A) : Prop :=
  ∀ w, I w → I (exec m w).

(** An invariant of the stored documents alone. *)
Definition on_db (P : gmap string Room → Prop) (w : World) : Prop := P (db w).

(** [activeClueKey] is set exactly when the phase is not [board]. *)
Definition coupled (d : Room) : Prop :=
  activeClueKey d ≠ None ↔ (phase d = Question ∨ phase d = Answer).

(** What no client state reached by the code ever has: a handler on the clue
    card, a clue in [appState.activeClue]. *)
Definition modal_never_populated (c : Client) : Prop :=
  clueCard_onclick (c_dom c) = false ∧ activeClue (c_app c) = None.

(** The invariant of a client's world behind the coupling of phase and
    active clue. *)
Definition room_inv (w : World) : Prop :=
  (∀ p d, db w !! p = Some d → coupled d) ∧ modal_never_populated (client_of w).

(** The value handed to the buzz transaction has a truthy [firstBuzzTeam]. *)
Definition winner_recorded (current : JsVal) : bool :=
  match current with
  | JObj fields => js_truthy (default JNull (assoc "firstBuzzTeam" fields))
  | _ => false
  end.

(** The events whose handler writes [null] to the buzz fields, replaces the
    document, or removes it. *)
Definition clears_buzz (e : Event) : bool :=
  match e with
  | tile_click _ | btnReturnToBoard_click | btnResetBuzz_click
  | btnCreateRoom_click | btnHostEndRoom_click => true
  | _ => false
  end.

Definition label_clears_buzz (l : Label) : bool :=
  match l with
  | page_open _ _ _ => false
  | client_event _ _ e => clears_buzz e
  end.

(** A click on a tile, the only event that opens a clue. *)
Definition is_clue_open (l : Label) : bool :=
  match l with
  | client_event _ _ (tile_click _) => true
  | _ => false
  end.

(** The events that begin or end the life of a room document. *)
Definition creates_or_ends (l : Label) : bool :=
  match l with
  | client_event _ _ btnCreateRoom_click
  | client_event _ _ btnHostEndRoom_click => true
  | _ => false
  end.

(** The clue [key] is marked used in the document stored at [path]. *)
Definition used_at (path key : string) (rooms : gmap string Room) : Prop :=
  ∃ d, rooms !! path = Some d ∧ boardUsed d !! key = Some true.

(** The conditions a question bank passes [loadQuestions] under. *)
Definition valid_clue (clue : Clue) : Prop :=
  question clue ≠ "" ∧ answer clue ≠ "".

Definition valid_category (c : Category) : Prop :=
  title c ≠ "" ∧ length (clues c) = 5%nat ∧
  value <$> clues c ≡ₚ VALUES ∧ Forall valid_clue (clues c).

Definition valid_questions (qs : Questions) : Prop :=
  length (categories qs) = 5%nat ∧ Forall valid_category (categories qs).

(** A string without a comma. *)
Fixpoint comma_free (s : string) : bool :=
  match s with
  | EmptyString => true
  | String c rest => negb (Ascii.eqb c ","%char) && comma_free rest
  end.

(** The eligibility gate in the words of the specification: per the
    snapshot the phase is [question], the deadline is set and has not passed
    at [now], and no winner is recorded. *)
Definition specified_buzz_gate (room : option Room) (now : Z) : bool :=
  match room with
  | Some room =>
      bool_decide (phase room = Question)
      && truthy_num (endAtMs (timer room))
      && bool_decide (now < default 0 (endAtMs (timer room)))
      && negb (truthy_team (firstBuzzTeam (buzz room)))
  | None => false
  end.

(** On the page of a player the buzz button is disabled whenever the
    snapshot records a winner. *)
Definition winner_disables_button (c : Client) : Prop :=
  mode (c_app c) = Some player →
  ∀ room, roomData (c_app c) = Some room →
          truthy_team (firstBuzzTeam (buzz room)) = true →
          btnBuzz_disabled (c_dom c) = true.

(** The banks that pass the checks the specification lists, which leave the
    title of a category out. *)
Definition specified_valid_questions (qs : Questions) : Prop :=
  length (categories qs) = 5%nat ∧
  Forall (λ c, length (clues c) = 5%nat ∧ value <$> clues c ≡ₚ VALUES ∧
               Forall valid_clue (clues c)) (categories qs).

(** The errors [loadQuestions] throws. *)
Definition loadQuestions_errors : list string :=
  [ "Failed to load questions.json";
    "questions.json must contain exactly 5 categories";
    "Each category must have a title and exactly 5 clues";
    "Each category must have clue values 100,200,300,400,500";
    "Each clue needs question and answer" ].

(** The keys of the tiles [renderBoard] draws, in the order it draws them. *)
Definition tile_keys : list string :=
  v ← VALUES; ci ← [0; 1; 2; 3; 4]; [clueKey ci v].

(** What a delivery of a snapshot to the listener leaves as it is: the
    database, the log of calls, the clocks and the rest of the environment,
    and of the client everything but the snapshot, the list of listeners, the
    clue of the modal and what the modal and the buzz button display. *)
Record session_frame (w w' : World) : Prop := {
  sf_db : db w' = db w;
  sf_store_log : store_log w' = store_log w;
  sf_date_now : date_now w' = date_now w;
  sf_serverOffsetMs : serverOffsetMs w' = serverOffsetMs w;
  sf_server_now : server_now w' = server_now w;
  sf_questions_json : questions_json w' = questions_json w;
  sf_random_n : random_n w' = random_n w;
  sf_device_id : device_id w' = device_id w;
  sf_mode : mode (app w') = mode (app w);
  sf_roomCode : roomCode (app w') = roomCode (app w);
  sf_teamId : teamId (app w') = teamId (app w);
  sf_playerName : playerName (app w') = playerName (app w);
  sf_questions : questions (app w') = questions (app w);
  sf_boardIndex : boardIndex (app w') = boardIndex (app w);
  sf_roomRef : roomRef (app w') = roomRef (app w);
  sf_board_tiles : board_tiles (dom w') = board_tiles (dom w);
  sf_clueCard_onclick : clueCard_onclick (dom w') = clueCard_onclick (dom w)
}.

(** A string in which the character [c] does not occur. *)
Fixpoint free_of (c : ascii) (s : string) : bool :=
  match s with
  | EmptyString => true
  | String a rest => negb (Ascii.eqb a c) && free_of c rest
  end.

(** The calls of [map.set] that [buildBoardIndex] makes, in order. *)
Definition index_entries (qs : Questions) : list (string * IndexedClue) :=
  '(i, cat) ← imap (λ i cat, (i, cat)) (categories qs);
  (λ clue, (clueKey (Z.of_nat i) (value clue),
            {| ci := Z.of_nat i; the_clue := clue; categoryTitle := title cat |}))
    <$> clues cat.

(** The events by which a client enters a room. *)
Definition enters_room (e : Event) : bool :=
  match e with
  | btnCreateRoom_click | btnJoinRoom_click _ _ _ => true
  | _ => false
  end.

(** The device [id] has an entry among the players of the room at [path]. *)
Definition registered_at (path id : string) (rooms : gmap string Room) : Prop :=
  ∃ d, rooms !! path = Some d ∧ is_Some (players d !! id).

Definition host_control (e : Event) : bool :=
  match e with
  | clueCard_click | btnReturnToBoard_click | btnResetBuzz_click
  | btnTimerReset_click | btnAward_click _ | btnPenalty_click _ => true
  | _ => false
  end.

(** What every stored room document satisfies: the fields no code writes
    after the creation have their initial values, the time stamps are
    resolved, a recorded winner has its time, and the scores are [0]. *)
Record settled (d : Room) : Prop := {
  settled_team1 : team_name (of_team1 (teams d)) = "Team 1";
  settled_team2 : team_name (of_team2 (teams d)) = "Team 2";
  settled_duration : durationSec (timer d) = Some 20;
  settled_createdAt : ∃ ms, createdAt d = Millis ms;
  settled_buzz : firstBuzzTeam (buzz d) ≠ None →
                 ∃ ms, firstBuzzAt (buzz d) = Some (Millis ms);
  settled_score1 : score (of_team1 (teams d)) = Some 0;
  settled_score2 : score (of_team2 (teams d)) = Some 0
}.

Definition all_settled (w : World) : Prop :=
  ∀ p d, db w !! p = Some d → settled d.

(** The events whose handlers write each part of the room document; creating
    and ending a room replace and remove all of it. *)
Definition replaces_document (e : Event) : bool :=
  match e with
  | btnCreateRoom_click | btnHostEndRoom_click => true
  | _ => false
  end.

Definition writes_board (e : Event) : bool :=
  match e with
  | tile_click _ | clueCard_click | btnReturnToBoard_click => true
  | _ => replaces_document e
  end.

Definition writes_buzz (e : Event) : bool :=
  match e with
  | btnBuzz_click | tile_click _ | btnReturnToBoard_click | btnResetBuzz_click => true
  | _ => replaces_document e
  end.

Definition writes_timer (e : Event) : bool :=
  match e with
  | tile_click _ | btnReturnToBoard_click | btnTimerReset_click => true
  | _ => replaces_document e
  end.

Definition writes_teams (e : Event) : bool :=
  match e with
  | btnAward_click _ | btnPenalty_click _ => true
  | _ => replaces_document e
  end.

Definition writes_players (e : Event) : bool :=
  match e with
  | btnJoinRoom_click _ _ _ => true
  | _ => replaces_document e
  end.

(** A part of the document stored at [path]. *)
Definition stored {A} (f : Room → A) (path : string) (w : World) : option A :=
  f <$> db w !! path.


(** ** A game used for the examples *)

Definition sample_category (t : string) : Category :=
  {| title := t;
     clues := (λ v, {| value := v; question := "Q"; answer := "A" |})
                <$> [300; 100; 500; 200; 400] |}.

Definition sample_questions : Questions :=
  {| categories := sample_category <$> ["A"; "B"; "C"; "D"; "E"] |}.

(** The clocks read [t], the bank is fetched, the code drawn is [JEP-1234]. *)
Definition sample_env (t : Z) : Env :=
  {| e_date_now := t; e_serverOffsetMs := 0; e_server_now := t;
     e_questions_json := {| res_ok := true; res_json := sample_questions |};
     e_random_n := 1234 |}.

Definition sample_room : string := "rooms/JEP-1234".

(** The document stored at [path], the initial one when there is none. *)
Definition doc_at (path : string) (s : System) : Room :=
  default initial (s_db s !! path).

(** The world client [i] handles an event in. *)
Definition client_world (s : System) (i : nat) (env : Env) : World :=
  world_of s (default (fresh_client true true "") (s_clients s !! i)) env.

(** The host creates the room, Ann joins team 1 and Bob team 2, the host
    opens the clue [c2_v300] and everybody receives the new document. *)
Definition clue_opened : list Label :=
  [ page_open true true "host-device";
    page_open true true "ann-device";
    page_open true true "bob-device";
    client_event 0 (sample_env 1000) btnCreateRoom_click;
    client_event 1 (sample_env 2000)
      (btnJoinRoom_click "JEP-1234" (Some team1) "Ann");
    client_event 2 (sample_env 3000)
      (btnJoinRoom_click "JEP-1234" (Some team2) "Bob");
    client_event 0 (sample_env 4000) (tile_click "c2_v300");
    client_event 0 (sample_env 4100) value_event;
    client_event 1 (sample_env 4100) value_event;
    client_event 2 (sample_env 4100) value_event ].

(** Ann buzzes and everybody receives the new document. *)
Definition ann_buzzes : list Label :=
  [ client_event 1 (sample_env 5000) btnBuzz_click;
    client_event 0 (sample_env 5100) value_event;
    client_event 2 (sample_env 5100) value_event ].

(** The host resets the buzz, Bob receives the document and buzzes. *)
Definition reset_then_bob_buzzes : list Label :=
  [ client_event 0 (sample_env 6000) btnResetBuzz_click;
    client_event 2 (sample_env 6100) value_event;
    client_event 2 (sample_env 7000) btnBuzz_click ].

(** The host's world just before it opens a clue, and once the clue
    [c2_v300] is open and the new document has reached every client. *)
Definition host_before_open : World :=
  client_world (run_from initial_system (take 6 clue_opened)) 0 (sample_env 4000).

Definition host_in_question : World :=
  client_world (run_from initial_system clue_opened) 0 (sample_env 8000).

(** The host returns to the board after the first clue. *)
Definition first_clue_played : list Label :=
  clue_opened ++
  [ client_event 0 (sample_env 9000) btnReturnToBoard_click;
    client_event 0 (sample_env 9100) value_event;
    client_event 1 (sample_env 9100) value_event ].

(** A second clue is opened, Ann buzzes, the host scores and returns. *)
Definition second_clue_played : list Label :=
  [ client_event 0 (sample_env 10000) (tile_click "c0_v100");
    client_event 1 (sample_env 10100) value_event;
    client_event 1 (sample_env 11000) btnBuzz_click;
    client_event 0 (sample_env 12000) (btnAward_click team1);
    client_event 0 (sample_env 12500) btnResetBuzz_click;
    client_event 0 (sample_env 13000) btnTimerReset_click;
    client_event 0 (sample_env 14000) btnReturnToBoard_click ].

(** A page that was just loaded, before any room exists. *)
Definition fresh_page : World := client_world initial_system 0 (sample_env 1000).

(** A bank with every clue in order and no title on its third category, and
    the page when that bank is the one fetched. *)
Definition untitled_questions : Questions :=
  {| categories := sample_category <$> ["A"; "B"; ""; "D"; "E"] |}.

Definition fresh_page_untitled : World :=
  {| db := db fresh_page; store_log := store_log fresh_page; app := app fresh_page;
     dom := dom fresh_page; date_now := date_now fresh_page;
     serverOffsetMs := serverOffsetMs fresh_page; server_now := server_now fresh_page;
     questions_json := {| res_ok := true; res_json := untitled_questions |};
     random_n := random_n fresh_page; device_id := device_id fresh_page |}.

(** Ann's world once the clue [c2_v300] is open, one second into the
    countdown. *)
Definition ann_in_question : World :=
  client_world (run_from initial_system clue_opened) 1 (sample_env 5000).

(** Ann leaves the room and the host plays on. *)
Definition ann_leaves : list Label :=
  [ client_event 1 (sample_env 15000) btnLeaveRoom_click;
    client_event 0 (sample_env 16000) (tile_click "c1_v200");
    client_event 0 (sample_env 17000) btnReturnToBoard_click ].


(** * Properties *)

(** Closed facts about the sample game are settled by evaluation. *)
Lemma Some_default {A} (x : option A) (d : A) :
  is_Some x → x = Some (default d x).
Proof. by intros [a ->]. Qed.

Ltac by_evaluation := apply (bool_decide_unpack _); vm_compute; exact I.

(** ** Invariants of the world across client code *)

Section Preservation.
Context (I : World → Prop).

Lemma keeps_ret {A} (a : A) : keeps I (mret a).
Proof. by intros w. Qed.

Lemma keeps_bind {A B} (m : M A) (f : A → M B) :
  keeps I m → (∀ a, keeps I (f a)) → keeps I (m ≫= f).
Proof.
  intros Hm Hf w Hw. unfold exec, mbind, M_bind.
  specialize (Hm w Hw). unfold exec in Hm.
  destruct (m w) as [[a| |e] w']; simpl in *; try done.
  by apply Hf.
Qed.

Lemma keeps_fn (body : M unit) : keeps I body → keeps I (fn body).
Proof.
  intros Hm w Hw. specialize (Hm w Hw). unfold exec, fn in *.
  by destruct (body w) as [[a| |e] w'].
Qed.

Lemma keeps_try_catch (body : M unit) : keeps I body → keeps I (try_catch body).
Proof.
  intros Hm w Hw. specialize (Hm w Hw). unfold exec, try_catch in *.
  by destruct (body w) as [[a| |e] w'].
Qed.

Lemma keeps_get_world : keeps I get_world.
Proof. by intros w. Qed.

Lemma keeps_return_ {A} : keeps I (@return_ A).
Proof. by intros w. Qed.

Lemma keeps_throw {A} e : keeps I (@throw A e).
Proof. by intros w. Qed.

Lemma keeps_return_if c : keeps I (return_if c).
Proof. destruct c; by intros w. Qed.

Lemma keeps_truthy_or_return {A} (x : option A) : keeps I (truthy_or_return x).
Proof. destruct x; by intros w. Qed.

Lemma keeps_deref {A} s (x : option A) : keeps I (deref s x).
Proof. destruct x; by intros w. Qed.

Lemma keeps_nowServerMs : keeps I nowServerMs.
Proof. by intros w. Qed.

Lemma keeps_randomCode : keeps I randomCode.
Proof. by intros w. Qed.

Lemma keeps_loadQuestions : keeps I loadQuestions.
Proof. intros w Hw. unfold exec, loadQuestions. by destruct (res_ok _). Qed.

Lemma keeps_modify f : (∀ w, I w → I (f w)) → keeps I (modify f).
Proof. intros Hf w Hw. by apply Hf. Qed.

Lemma keeps_ref_get path :
  (∀ c w, I w → I (log_call c w)) → keeps I (ref_get path).
Proof. intros Hf w Hw. by apply Hf. Qed.

(** The clue modal is never opened: the call returns at the guard or
    skips the guarded block, and the block holds all the rest. *)
Lemma openClueModal_noop clueKey ph w :
  openClueModal clueKey ph w = (Normal (), w).
Proof.
  unfold openClueModal, fn, mbind, M_bind, get_world, return_, mret, M_ret.
  destruct (negb _ || _); reflexivity.
Qed.

Lemma keeps_openClueModal clueKey ph : keeps I (openClueModal clueKey ph).
Proof. intros w Hw. unfold exec. by rewrite openClueModal_noop. Qed.

Lemma keeps_notify path : (∀ v, keeps I (handler v)) → keeps I (notify path).
Proof.
  intros Hh w Hw. unfold exec, notify. case_bool_decide; simpl; [|done].
  by apply Hh.
Qed.
End Preservation.

(** One step of a preservation proof, chosen by the shape of the code. *)
Ltac keeps_step :=
  lazymatch goal with
  | |- keeps _ (mret _) => apply keeps_ret
  | |- keeps _ get_world => apply keeps_get_world
  | |- keeps _ return_ => apply keeps_return_
  | |- keeps _ (throw _) => apply keeps_throw
  | |- keeps _ (return_if _) => apply keeps_return_if
  | |- keeps _ (truthy_or_return _) => apply keeps_truthy_or_return
  | |- keeps _ (deref _ _) => apply keeps_deref
  | |- keeps _ nowServerMs => apply keeps_nowServerMs
  | |- keeps _ randomCode => apply keeps_randomCode
  | |- keeps _ loadQuestions => apply keeps_loadQuestions
  | |- keeps _ (fn _) => apply keeps_fn
  | |- keeps _ (try_catch _) => apply keeps_try_catch
  | |- keeps _ (mbind _ _) => apply keeps_bind; [|intros ?]
  | |- keeps _ (modify _) => apply keeps_modify
  | |- keeps _ (ref_get _) => apply keeps_ref_get
  | |- keeps _ (openClueModal _ _) => apply keeps_openClueModal
  | |- keeps _ (notify _) => apply keeps_notify; intros ?
  | |- keeps _ (if ?c then _ else _) => destruct c
  | |- keeps _ (match ?x with _ => _ end) => destruct x
  | |- keeps _ (let _ := _ in _) => cbv zeta
  | |- keeps _ (handler _) => unfold handler
  | |- keeps _ updateAllUI => unfold updateAllUI
  | |- keeps _ updatePlayerBuzzButton => unfold updatePlayerBuzzButton
  | |- keeps _ closeClueModal => unfold closeClueModal
  | |- keeps _ clearListeners => unfold clearListeners
  | |- keeps _ subscribeToRoom => unfold subscribeToRoom
  | |- keeps _ deliver_snapshot => unfold deliver_snapshot
  | |- keeps _ renderBoard => unfold renderBoard
  | |- keeps _ leaveToLanding => unfold leaveToLanding
  | |- keeps _ activeClue_value => unfold activeClue_value
  | |- keeps _ (ref_set _ _) => unfold ref_set
  | |- keeps _ (ref_update _ _) => unfold ref_update
  | |- keeps _ (ref_remove _) => unfold ref_remove
  | |- keeps _ (buzz_transaction _ _) => unfold buzz_transaction
  | |- keeps _ (score_transaction _ _ _) => unfold score_transaction
  | |- keeps _ (player_set _ _ _) => unfold player_set
  | |- keeps _ createRoomAsHost => unfold createRoomAsHost
  | |- keeps _ (joinRoomAsPlayer _ _ _) => unfold joinRoomAsPlayer
  | |- keeps _ (onHostTileClick _) => unfold onHostTileClick
  | |- keeps _ playerBuzz => unfold playerBuzz
  | |- keeps _ resetBuzz => unfold resetBuzz
  | |- keeps _ resetTimer => unfold resetTimer
  | |- keeps _ (adjustScore _ _) => unfold adjustScore
  | |- keeps _ clueCard_onclick_handler => unfold clueCard_onclick_handler
  | |- keeps _ returnToBoardAndMarkUsed => unfold returnToBoardAndMarkUsed
  | |- keeps _ endRoom => unfold endRoom
  | |- keeps _ (dispatch ?e) => destruct e; unfold dispatch
  end.

(** The listener and the functions it calls never call the database: an
    invariant that does not depend on [appState] and on the DOM survives
    them. *)
Lemma keeps_handler I v :
  (∀ f w, I w → I (with_app f w)) → (∀ f w, I w → I (with_dom f w)) →
  keeps I (handler v).
Proof.
  intros Happ Hdom. repeat keeps_step; auto.
Qed.

(** ** The modal is never populated, the phase and the active clue stay coupled *)

Lemma clueCard_click_noop w :
  clueCard_onclick (dom w) = false → dispatch clueCard_click w = (Normal (), w).
Proof.
  intros H. unfold dispatch, mbind, M_bind, get_world. by rewrite H.
Qed.

Lemma coupled_alter (g : Room → Room) path (rooms : gmap string Room) :
  (∀ d, coupled d → coupled (g d)) →
  (∀ p d, rooms !! p = Some d → coupled d) →
  ∀ p d, alter g path rooms !! p = Some d → coupled d.
Proof.
  intros Hg Hall p d [[_ (d0 & Hd0 & Hd)]|[_ Hd]]%lookup_alter_Some;
    [rewrite Hd|]; eauto.
Qed.

Lemma coupled_initial now : coupled (resolve_room now initial).
Proof. unfold coupled; simpl. intuition congruence. Qed.

Lemma dispatch_keeps_room_inv e : keeps room_inv (dispatch e).
Proof.
  assert (keeps room_inv (dispatch clueCard_click)) as Hcard.
  { intros w Hw. unfold exec. rewrite clueCard_click_noop; [done|]. apply Hw. }
  destruct e; try exact Hcard; clear Hcard; unfold dispatch; repeat keeps_step.
  all: intros;
       repeat match goal with H : room_inv _ |- _ => destruct H as [? [? ?]] end.
  all: split; [|by split]; simpl.
  all: try done.
  all: try (apply coupled_alter; [|done]; intros d0; unfold coupled; simpl;
            destruct (phase d0); intuition congruence).
  - intros p d [[<- <-]|[_ Hd]]%lookup_insert_Some; eauto using coupled_initial.
  - intros p d [_ Hd]%lookup_delete_Some; eauto.
Qed.

Lemma run_from_snoc s ls l : run_from s (ls ++ [l]) = sys_do (run_from s ls) l.
Proof. unfold run_from. by rewrite foldl_app. Qed.

Lemma reachable_room_inv s :
  reachable s →
  (∀ p d, s_db s !! p = Some d → coupled d) ∧
  Forall modal_never_populated (s_clients s).
Proof.
  intros [ls ->]. induction ls as [|l ls IH] using rev_ind.
  { split; [by intros p d|constructor]. }
  rewrite run_from_snoc. destruct IH as [Hc Hm].
  destruct l as [hidden disabled device|i env e]; simpl.
  - split; [done|]. apply Forall_app. split; [done|]. by repeat constructor.
  - destruct (s_clients _ !! i) as [c|] eqn:Hi; [|done].
    destruct (dispatch_keeps_room_inv e (world_of (run_from initial_system ls) c env))
      as [Hc' Hm'].
    { split; [done|]. rewrite Forall_lookup in Hm. apply (Hm i c Hi). }
    split; [done|]. by apply Forall_insert.
Qed.

(** C6. In every system state reached from the empty database by page loads
    and client events of any number of clients, in any order and with
    snapshots as stale as the deliveries leave them (room creation, tile
    click, clue-card click, return to board, buzz, award and penalty, reset of
    buzz and timer, join, leave, end of room, snapshot delivery, timer tick),
    every stored room document has [activeClueKey] non-null exactly when its
    phase is [question] or [answer], that is exactly when its phase is not
    [board]. *)
Theorem phase_activeClue_coupling s path d :
  reachable s → s_db s !! path = Some d →
  (activeClueKey d ≠ None ↔ phase d = Question ∨ phase d = Answer) ∧
  (activeClueKey d ≠ None ↔ phase d ≠ Board).
Proof.
  intros Hs Hd. destruct (reachable_room_inv s Hs) as [Hc _].
  specialize (Hc path d Hd). unfold coupled in Hc. split; [done|].
  rewrite Hc. destruct (phase d); intuition congruence.
Qed.

Lemma phase_activeClue_coupling_witness :
  s_db (run_from initial_system clue_opened) !! sample_room
    = Some (doc_at sample_room (run_from initial_system clue_opened)) ∧
  (activeClueKey (doc_at sample_room (run_from initial_system clue_opened)) ≠ None
   ↔ phase (doc_at sample_room (run_from initial_system clue_opened)) ≠ Board).
Proof.
  assert (s_db (run_from initial_system clue_opened) !! sample_room
          = Some (doc_at sample_room (run_from initial_system clue_opened))) as Hd
    by (apply Some_default; by_evaluation).
  split; [exact Hd|].
  apply (phase_activeClue_coupling _ sample_room _
           (ex_intro _ clue_opened eq_refl) Hd).
Defined.

(** ** Used flags are never reset *)

Lemma used_at_alter (g : Room → Room) p path key (rooms : gmap string Room) :
  (∀ d, boardUsed d !! key = Some true → boardUsed (g d) !! key = Some true) →
  used_at path key rooms → used_at path key (alter g p rooms).
Proof.
  intros Hg (d & Hd & Hk). unfold used_at. rewrite lookup_alter.
  case_decide; simplify_eq; rewrite ?Hd; simpl; eauto.
Qed.

Lemma dispatch_keeps_used e path key :
  e ≠ btnCreateRoom_click → e ≠ btnHostEndRoom_click →
  keeps (on_db (used_at path key)) (dispatch e).
Proof.
  intros Hcreate Hend.
  destruct e; try done; unfold dispatch; repeat keeps_step.
  all: unfold on_db; intros; simpl; try done.
  all: apply used_at_alter; [|done]; intros d0 Hd0; simpl; try done.
  all: match goal with |- <[?k := true]> _ !! _ = _ =>
         by destruct (decide (k = key)) as [->|];
           [rewrite lookup_insert_eq|rewrite lookup_insert_ne]
       end.
Qed.

(** C7. Over any sequence of steps of the system that neither creates nor
    ends a room (tile click, clue-card click, return to board, buzz, award
    and penalty, reset of buzz and timer, join, leave, snapshot delivery,
    timer tick, page load), by any clients in any order, a clue key whose
    [boardUsed] flag is [true] in the document stored at a path still has the
    flag [true] there afterwards. *)
Theorem boardUsed_monotone s ls path key :
  Forall (λ l, creates_or_ends l = false) ls →
  used_at path key (s_db s) →
  used_at path key (s_db (run_from s ls)).
Proof.
  intros Hls. revert s. induction Hls as [|l ls Hl _ IH]; intros s Hs; [done|].
  apply IH. destruct l as [hidden disabled device|i env e]; simpl; [done|].
  destruct (s_clients s !! i) as [c|]; [|done]. simpl.
  apply (dispatch_keeps_used e path key); [by intros ->..|done].
Qed.

Lemma boardUsed_monotone_witness :
  used_at sample_room "c2_v300"
    (s_db (run_from (run_from initial_system first_clue_played) second_clue_played)).
Proof.
  apply (boardUsed_monotone (run_from initial_system first_clue_played)
           second_clue_played sample_room "c2_v300").
  - repeat constructor.
  - exists (doc_at sample_room (run_from initial_system first_clue_played)).
    split; [apply Some_default; by_evaluation|vm_compute; reflexivity].
Defined.

(** ** Running client code step by step *)

Lemma exec_bind {A B} (m : M A) (f : A → M B) w :
  exec (m ≫= f) w =
  match m w with (Normal a, w') => exec (f a) w' | (_, w') => w' end.
Proof. unfold exec, mbind, M_bind. by destruct (m w) as [[a| |e] w']. Qed.

Lemma run_bind {A B} (m : M A) (f : A → M B) w :
  (m ≫= f) w =
  match m w with
  | (Normal a, w') => f a w'
  | (Return_, w') => (Return_, w')
  | (Throw e, w') => (Throw e, w')
  end.
Proof. reflexivity. Qed.

Lemma exec_fn body w : exec (fn body) w = exec body w.
Proof. unfold exec, fn. by destruct (body w) as [[a| |e] w']. Qed.

Lemma exec_try_catch body w : exec (try_catch body) w = exec body w.
Proof. unfold exec, try_catch. by destruct (body w) as [[a| |e] w']. Qed.

#[local] Arguments notify : simpl never.
#[local] Arguments buzz_of_js : simpl never.

(** The listeners leave the database and the log of calls as they are. *)
Lemma notify_store path w :
  ∃ w', notify path w = (Normal (), w') ∧ db w' = db w ∧
        store_log w' = store_log w ∧ server_now w' = server_now w.
Proof.
  unfold notify. case_bool_decide; [|by eexists].
  eexists; split; [done|].
  apply (keeps_handler (λ w', db w' = db w ∧ store_log w' = store_log w ∧
                              server_now w' = server_now w)); [..|done].
  all: by intros.
Qed.

Lemma exec_notify path w :
  db (exec (notify path) w) = db w ∧
  store_log (exec (notify path) w) = store_log w.
Proof.
  destruct (notify_store path w) as (w' & Hn & ? & ? & ?). unfold exec.
  by rewrite Hn.
Qed.

Lemma ref_set_run path doc w :
  ∃ w', ref_set path doc w = (Normal (), w') ∧
        db w' = <[path := resolve_room (server_now w) doc]> (db w) ∧
        store_log w' = call_set path :: store_log w.
Proof.
  unfold ref_set. repeat (rewrite run_bind; simpl).
  match goal with |- context [notify ?p ?w0] =>
    destruct (notify_store p w0) as (w' & -> & Hdb & Hlog & _) end.
  by exists w'.
Qed.

Lemma ref_update_run path patch w :
  ∃ w', ref_update path patch w = (Normal (), w') ∧
        db w' = alter (apply_patch (server_now w) patch) path (db w) ∧
        store_log w' = call_update path patch :: store_log w.
Proof.
  unfold ref_update. repeat (rewrite run_bind; simpl).
  match goal with |- context [notify ?p ?w0] =>
    destruct (notify_store p w0) as (w' & -> & Hdb & Hlog & _) end.
  by exists w'.
Qed.

Ltac exec_simpl :=
  repeat (rewrite ?exec_fn, ?exec_try_catch, ?exec_bind;
          unfold mret, M_ret, get_world, modify, return_if, return_,
            truthy_or_return, deref, throw, nowServerMs;
          simpl).

Ltac run_simpl :=
  repeat (rewrite ?run_bind;
          unfold mret, M_ret, get_world, modify, return_if, return_,
            truthy_or_return, deref, throw, nowServerMs;
          simpl).

(** ** What the listener leaves as it is *)

Lemma session_frame_refl w : session_frame w w.
Proof. by split. Qed.

Lemma session_frame_trans w1 w2 w3 :
  session_frame w1 w2 → session_frame w2 w3 → session_frame w1 w3.
Proof. intros [] []. split; congruence. Qed.

Lemma handler_exec v w :
  session_frame w (exec (handler v) w) ∧
  unsub (app (exec (handler v) w)) = unsub (app w) ∧
  roomData (app (exec (handler v) w)) = v.
Proof.
  assert (keeps (λ w', session_frame w w' ∧ unsub (app w') = unsub (app w) ∧
                        roomData (app w') = v)
                 (return_if (negb (truthy_obj v)) ;; updateAllUI)) as Hrest.
  { repeat keeps_step.
    all: intros ? ([] & ? & ?); by repeat split. }
  unfold handler. rewrite exec_fn, exec_bind. simpl.
  apply Hrest. by repeat split.
Qed.

Lemma notify_Normal path w : notify path w = (Normal (), exec (notify path) w).
Proof. unfold exec, notify. by case_bool_decide. Qed.

(** The echo of a database call: the listener runs when the caller listens
    to the path, and then the caller's snapshot is the stored value. *)
Lemma notify_run path w :
  ∃ w', notify path w = (Normal (), w') ∧
        session_frame w w' ∧ unsub (app w') = unsub (app w) ∧
        roomData (app w') =
          if bool_decide (path ∈ unsub (app w)) then db w !! path
          else roomData (app w).
Proof.
  unfold notify. case_bool_decide; (eexists; split; [done|]).
  - apply handler_exec.
  - repeat split.
Qed.

(** Runs the database call at the head of the code and names the world the
    listener leaves. *)
Ltac run_notify w' F :=
  run_simpl;
  match goal with |- context [notify ?p ?w0] =>
    let Hu := fresh "Hunsub" in
    let Hr := fresh "HroomData" in
    destruct (notify_run p w0) as (w' & -> & F & Hu & Hr); simpl in Hu, Hr
  end.

Lemma subscribeToRoom_run w ref :
  roomRef (app w) = Some ref →
  ∃ w', subscribeToRoom w = (Normal (), w') ∧ session_frame w w' ∧
        unsub (app w') = [ref] ∧ roomData (app w') = db w !! ref.
Proof.
  intros Href. unfold subscribeToRoom, fn, clearListeners.
  repeat (rewrite run_bind; simpl). rewrite Href. simpl.
  run_notify w1 F. rewrite bool_decide_eq_true_2 in HroomData by set_solver.
  exists w1. split; [done|]. split; [|done]. destruct F. by split.
Qed.

(** The update function on any value: it never throws, because a falsy
    [current] is replaced by [{}] before its property is read. *)
Lemma buzz_update_spec teamId current :
  buzz_update teamId current =
  if winner_recorded current then Return_
  else Normal (JObj [ ("firstBuzzTeam", teamId);
                      ("firstBuzzAt", ServerValue_TIMESTAMP) ]).
Proof.
  destruct current as [|[]|z|s|fields]; try done.
  - unfold buzz_update. simpl. by destruct (z =? 0).
  - unfold buzz_update. simpl. by destruct (truthy_string s).
Qed.

(** On the values the [buzz] node can hold, the update function aborts
    when a winner is recorded and otherwise returns the record of the team and
    the placeholder, which the store reads back as the team and its clock. *)
Lemma buzz_update_stored teamId b :
  buzz_update (teamId_js teamId) (js_of_buzz b) =
  if truthy_team (firstBuzzTeam b) then Return_
  else Normal (JObj [ ("firstBuzzTeam", teamId_js teamId);
                      ("firstBuzzAt", ServerValue_TIMESTAMP) ]).
Proof. by destruct b as [[[]|] [[]|]]. Qed.

Lemma buzz_of_js_committed now teamId :
  buzz_of_js now (JObj [ ("firstBuzzTeam", teamId_js teamId);
                         ("firstBuzzAt", ServerValue_TIMESTAMP) ])
  = {| firstBuzzTeam := teamId; firstBuzzAt := Some (Millis now) |}.
Proof. by destruct teamId as [[]|]. Qed.

Lemma buzz_transaction_store path teamId w :
  store_log (exec (buzz_transaction path (buzz_update (teamId_js teamId))) w)
    = call_transaction (path +:+ "/buzz") :: store_log w ∧
  db (exec (buzz_transaction path (buzz_update (teamId_js teamId))) w) =
    match db w !! path with
    | Some d =>
        if truthy_team (firstBuzzTeam (buzz d)) then db w
        else <[path := set_buzz
                         {| firstBuzzTeam := teamId;
                            firstBuzzAt := Some (Millis (server_now w)) |} d]> (db w)
    | None => db w
    end.
Proof.
  unfold buzz_transaction. exec_simpl.
  destruct (db w !! path) as [d|] eqn:Hd; simpl; [|done].
  rewrite buzz_update_stored.
  destruct (truthy_team (firstBuzzTeam (buzz d))); simpl; [done|].
  exec_simpl.
  match goal with |- context [exec (notify path) ?w0] =>
    destruct (exec_notify path w0) as [-> ->] end.
  simpl. split; [done|]. rewrite buzz_of_js_committed.
  apply map_eq. intros p. rewrite lookup_alter, lookup_insert.
  case_decide; simplify_eq; by rewrite ?Hd.
Qed.

Lemma playerBuzz_store w :
  exec playerBuzz w = w ∨
  ∃ room ref,
    roomData (app w) = Some room ∧ phase room = Question ∧
    truthy_num (endAtMs (timer room)) = true ∧
    date_now w + serverOffsetMs w < default 0 (endAtMs (timer room)) ∧
    roomRef (app w) = Some ref ∧
    exec playerBuzz w
      = exec (buzz_transaction ref (buzz_update (teamId_js (teamId (app w))))) w.
Proof.
  unfold playerBuzz. exec_simpl.
  destruct (roomData (app w)) as [room|] eqn:Hroom; simpl; [|by left].
  exec_simpl.
  case_bool_decide as Hphase; simpl; [|by left].
  exec_simpl.
  destruct (truthy_num (endAtMs (timer room))) eqn:HendAt; simpl; [|by left].
  case_bool_decide as Hnow; simpl; [by left|].
  exec_simpl.
  destruct (roomRef (app w)) as [ref|] eqn:Href; simpl; [|by left].
  right. exists room, ref. repeat split; try done; lia.
Qed.

(** ** Buzz exclusivity *)

Lemma dispatch_keeps_winner e path o :
  clears_buzz e = false → e ≠ btnBuzz_click →
  keeps (on_db (λ rooms, firstBuzzTeam_at path rooms = o)) (dispatch e).
Proof.
  intros Hclear Hbuzz.
  destruct e; try done; unfold dispatch; repeat keeps_step.
  all: unfold on_db, firstBuzzTeam_at; intros; simpl; try done.
  all: rewrite lookup_alter; case_decide; simplify_eq; [|done].
  all: by destruct (db _ !! _).
Qed.

Lemma dispatch_clearing e path o :
  clears_buzz e = true →
  keeps (on_db (λ rooms, firstBuzzTeam_at path rooms = o ∨
                         firstBuzzTeam_at path rooms = None)) (dispatch e).
Proof.
  intros Hclear.
  destruct e; try done; unfold dispatch; repeat keeps_step.
  all: unfold on_db, firstBuzzTeam_at; intros; simpl; try done.
  all: rewrite ?lookup_alter, ?lookup_insert, ?lookup_delete;
       case_decide; simplify_eq; [|done].
  all: try destruct (db _ !! _); simpl; auto.
Qed.

Lemma buzz_click_winner w path t :
  firstBuzzTeam_at path (db w) = Some t →
  firstBuzzTeam_at path (db (exec (dispatch btnBuzz_click) w)) = Some t.
Proof.
  intros Ht. unfold dispatch. rewrite exec_bind. simpl.
  destruct (btnBuzz_disabled (dom w)); [done|]. rewrite exec_try_catch.
  destruct (playerBuzz_store w) as [->|(room & ref & _ & _ & _ & _ & _ & ->)]; [done|].
  destruct (buzz_transaction_store ref (teamId (app w)) w) as [_ ->].
  destruct (db w !! ref) as [d|] eqn:Hd; [|done].
  destruct (truthy_team (firstBuzzTeam (buzz d))) eqn:Hset; [done|].
  unfold firstBuzzTeam_at in *. rewrite lookup_insert. case_decide; [|done].
  simplify_eq. rewrite Hd in Ht. simpl in Ht. by rewrite Ht in Hset.
Qed.

(** One step of the system: a winner that is set stays, or the step is one of
    the writes that clear the buzz and the winner is unset. *)
Lemma sys_do_winner s l path t :
  firstBuzzTeam_at path (s_db s) = Some t →
  firstBuzzTeam_at path (s_db (sys_do s l)) = Some t ∨
  (label_clears_buzz l = true ∧ firstBuzzTeam_at path (s_db (sys_do s l)) = None).
Proof.
  intros Ht. destruct l as [hidden disabled device|i env e]; simpl; [by left|].
  destruct (s_clients s !! i) as [c|]; [|by left]. simpl.
  destruct (clears_buzz e) eqn:Hclear.
  - destruct (dispatch_clearing e path (Some t) Hclear (world_of s c env)) as [?|?];
      [by left|by left|by right].
  - left. destruct (decide (e = btnBuzz_click)) as [->|Hne].
    + by apply buzz_click_winner.
    + by apply (dispatch_keeps_winner e path (Some t) Hclear Hne (world_of s c env)).
Qed.

(** C1, amended.  Over any sequence of steps of the system that has no write
    clearing the buzz (no clue-open, return to board, reset-buzz, room
    creation or removal) -- in particular over any sequence of buzz attempts by
    any clients in any order -- a [firstBuzzTeam] that is set keeps its value
    in every state a subscriber can observe; a further step either leaves it
    as it is or is one of those clearing writes and unsets it.  The update
    function of the buzz transaction aborts when [firstBuzzTeam] is already
    set and otherwise returns [firstBuzzTeam] and [firstBuzzAt] together, which
    the store commits in one step. *)
Theorem buzz_exclusivity s ls path t :
  Forall (λ l, label_clears_buzz l = false) ls →
  firstBuzzTeam_at path (s_db s) = Some t →
  firstBuzzTeam_at path (s_db (run_from s ls)) = Some t ∧
  (∀ l, firstBuzzTeam_at path (s_db (sys_do (run_from s ls) l)) = Some t ∨
        (label_clears_buzz l = true ∧
         firstBuzzTeam_at path (s_db (sys_do (run_from s ls) l)) = None)) ∧
  (∀ teamId current,
     buzz_update teamId current =
     if winner_recorded current then Return_
     else Normal (JObj [ ("firstBuzzTeam", teamId);
                         ("firstBuzzAt", ServerValue_TIMESTAMP) ])).
Proof.
  intros Hls Ht.
  assert (firstBuzzTeam_at path (s_db (run_from s ls)) = Some t) as Hkept.
  { revert s Ht. induction Hls as [|l ls Hl _ IH]; intros s Ht; [done|].
    apply IH. destruct (sys_do_winner s l path t Ht) as [?|[Hc _]]; [done|].
    by rewrite Hc in Hl. }
  split; [done|]. split; [intros l; by apply sys_do_winner|].
  apply buzz_update_spec.
Qed.

Lemma buzz_exclusivity_witness :
  firstBuzzTeam_at sample_room
    (s_db (run_from (run_from initial_system (clue_opened ++ ann_buzzes))
                    [client_event 2 (sample_env 5500) btnBuzz_click]))
  = Some team1.
Proof.
  apply (buzz_exclusivity
           (run_from initial_system (clue_opened ++ ann_buzzes))
           [client_event 2 (sample_env 5500) btnBuzz_click] sample_room team1).
  - repeat constructor.
  - vm_compute. reflexivity.
Defined.

(** C1 as stated fails: within one question cycle (no clue is opened in
    between, the phase stays [question] on the same clue) team 1 wins the
    buzz, the host presses "reset buzz", and team 2 wins it: two different
    [firstBuzzTeam] values are observed before the next clue-open. *)
Lemma resetBuzz_changes_winner :
  firstBuzzTeam_at sample_room
    (s_db (run_from initial_system (clue_opened ++ ann_buzzes))) = Some team1 ∧
  firstBuzzTeam_at sample_room
    (s_db (run_from (run_from initial_system (clue_opened ++ ann_buzzes))
                    reset_then_bob_buzzes)) = Some team2 ∧
  forallb (λ l, negb (is_clue_open l)) reset_then_bob_buzzes = true ∧
  phase (doc_at sample_room (run_from initial_system (clue_opened ++ ann_buzzes)))
    = Question ∧
  phase (doc_at sample_room
           (run_from (run_from initial_system (clue_opened ++ ann_buzzes))
                     reset_then_bob_buzzes)) = Question ∧
  activeClueKey
    (doc_at sample_room
       (run_from (run_from initial_system (clue_opened ++ ann_buzzes))
                 reset_then_bob_buzzes)) = Some "c2_v300".
Proof. vm_compute. repeat split. Qed.

(** ** The validation of the question bank *)

Lemma comma_free_append s r :
  comma_free s = true → comma_free (s +:+ String "," r) = false.
Proof.
  induction s as [|c s IH]; simpl; [done|].
  intros [_ Hs]%andb_prop. rewrite IH by done. apply andb_false_r.
Qed.

Lemma append_comma_inj s1 s2 r1 r2 :
  comma_free s1 = true → comma_free s2 = true →
  s1 +:+ String "," r1 = s2 +:+ String "," r2 → s1 = s2 ∧ r1 = r2.
Proof.
  revert s2. induction s1 as [|c1 s1 IH]; intros [|c2 s2]; simpl.
  - intros _ _ [= ->]. done.
  - intros _ [Hc _]%andb_prop [= <- _]. done.
  - intros [Hc _]%andb_prop _ [= -> _]. done.
  - intros [_ H1]%andb_prop [_ H2]%andb_prop [= -> Heq].
    destruct (IH s2 H1 H2 Heq) as [-> ->]. done.
Qed.

(** Joining with commas is injective on lists of equal length whose
    elements have no comma. *)
Lemma concat_comma_inj (l1 l2 : list string) :
  length l1 = length l2 →
  Forall (λ s, comma_free s = true) l1 → Forall (λ s, comma_free s = true) l2 →
  String.concat "," l1 = String.concat "," l2 → l1 = l2.
Proof.
  revert l2. induction l1 as [|x [|x' l1] IH]; intros [|y [|y' l2]]; try done.
  - simpl. by intros _ _ _ ->.
  - intros [= Hlen] [Hx Hl1]%Forall_cons [Hy Hl2]%Forall_cons Heq.
    change (x +:+ String "," (String.concat "," (x' :: l1)) =
            y +:+ String "," (String.concat "," (y' :: l2))) in Heq.
    apply append_comma_inj in Heq as [-> Heq]; [|done..].
    f_equal. apply IH; [simpl; by f_equal|done..].
Qed.

Lemma pretty_N_go_comma_free x s :
  comma_free s = true → comma_free (pretty_N_go x s) = true.
Proof.
  revert s. induction (N.lt_wf_0 x) as [x _ IH]. intros s Hs.
  destruct (decide (x = 0)%N) as [->|Hx]; [done|].
  rewrite pretty_N_go_step by lia. apply IH.
  - apply N.div_lt; lia.
  - simpl. rewrite Hs. unfold pretty_N_char. by repeat case_match.
Qed.

Lemma pretty_Z_comma_free (z : Z) : comma_free (pretty z) = true.
Proof.
  destruct z as [|p|p]; unfold pretty, pretty_Z; [done|..];
    unfold pretty, pretty_positive, pretty, pretty_N; simpl;
    by apply pretty_N_go_comma_free.
Qed.

Lemma sorted_VALUES : Sorted Z.le VALUES.
Proof. unfold VALUES. repeat constructor; lia. Qed.

(** The comparison of the joined values with ["100,200,300,400,500"]
    succeeds exactly for the banks whose values are those five, in any
    order. *)
Lemma values_joined_spec c :
  length (clues c) = 5%nat →
  String.eqb (values_joined c) "100,200,300,400,500" = true
  ↔ value <$> clues c ≡ₚ VALUES.
Proof.
  intros Hlen. rewrite String.eqb_eq. unfold values_joined. split.
  - intros Heq. rewrite <-(merge_sort_Permutation Z.le (value <$> clues c)).
    assert (pretty <$> merge_sort Z.le (value <$> clues c) = pretty <$> VALUES) as Hmap.
    { apply concat_comma_inj;
        [|apply Forall_fmap, Forall_true, pretty_Z_comma_free..|done].
      rewrite !length_fmap, (Permutation_length (merge_sort_Permutation _ _)).
      by rewrite length_fmap, Hlen. }
    by apply (inj (fmap pretty)) in Hmap as ->.
  - intros Hperm.
    assert (merge_sort Z.le (value <$> clues c) = VALUES) as ->; [|done].
    apply (Sorted_unique Z.le); [apply Sorted_merge_sort, _|apply sorted_VALUES|].
    by rewrite merge_sort_Permutation.
Qed.

Lemma for_of_Normal {A} (xs : list A) (body : A → Completion unit) :
  for_of xs body = Normal () ↔ Forall (λ x, body x = Normal ()) xs.
Proof.
  induction xs as [|x xs IH]; simpl; [by split; [constructor|]|].
  rewrite Forall_cons, <-IH. unfold mbind, Completion_bind.
  destruct (body x) as [[]| |e]; intuition congruence.
Qed.

Lemma for_of_no_return {A} (xs : list A) (body : A → Completion unit) :
  (∀ x, body x ≠ Return_) → for_of xs body ≠ Return_.
Proof.
  intros Hbody. induction xs as [|x xs IH]; simpl; [done|].
  unfold mbind, Completion_bind. specialize (Hbody x). by destruct (body x).
Qed.

Lemma truthy_string_spec s : truthy_string s = true ↔ s ≠ "".
Proof.
  unfold truthy_string. rewrite negb_true_iff, String.eqb_neq. done.
Qed.

Lemma loadQuestions_world w : exec loadQuestions w = w.
Proof. unfold exec, loadQuestions. by destruct (res_ok _). Qed.

Lemma loadQuestions_no_return w : completion loadQuestions w ≠ Return_.
Proof.
  unfold completion, loadQuestions. destruct (res_ok _); simpl; [|done].
  unfold mbind, Completion_bind.
  destruct (negb (bool_decide _)); [done|].
  match goal with |- context [for_of ?xs ?body] =>
    pose proof (for_of_no_return xs body) as Hfor; destruct (for_of xs body) as [[]| |e]
  end; try done.
  exfalso. apply Hfor; [|done]. intros c.
  destruct (_ || _); [done|]. destruct (negb (String.eqb _ _)); [done|].
  apply for_of_no_return. intros clue. by destruct (_ || _).
Qed.

Lemma clue_check_spec clue :
  (if negb (truthy_string (question clue)) || negb (truthy_string (answer clue))
   then Throw "Each clue needs question and answer"
   else Normal ()) = Normal () ↔ valid_clue clue.
Proof.
  unfold valid_clue. rewrite <-!truthy_string_spec.
  destruct (truthy_string (question clue)), (truthy_string (answer clue));
    simpl; intuition congruence.
Qed.

Lemma category_check_spec c :
  ((if negb (truthy_string (title c))
       || negb (bool_decide (length (clues c) = 5%nat))
    then Throw "Each category must have a title and exactly 5 clues"
    else Normal ()) ;;
   (if negb (String.eqb (values_joined c) "100,200,300,400,500")
    then Throw "Each category must have clue values 100,200,300,400,500"
    else Normal ()) ;;
   for_of (clues c) (λ clue,
     if negb (truthy_string (question clue)) || negb (truthy_string (answer clue))
     then Throw "Each clue needs question and answer"
     else Normal ())) = Normal () ↔ valid_category c.
Proof.
  unfold valid_category, mbind, Completion_bind.
  rewrite <-truthy_string_spec.
  destruct (truthy_string (title c)); simpl; [|intuition congruence].
  case_bool_decide as Hlen; simpl; [|intuition congruence].
  rewrite <-(values_joined_spec c Hlen).
  destruct (String.eqb (values_joined c) _); simpl; [|intuition congruence].
  rewrite for_of_Normal.
  assert (Forall (λ clue,
            (if negb (truthy_string (question clue))
                || negb (truthy_string (answer clue))
             then Throw "Each clue needs question and answer"
             else Normal ()) = Normal ()) (clues c)
          ↔ Forall valid_clue (clues c)) as ->; [|intuition congruence].
  apply Forall_proper; [|done]. intros clue. apply clue_check_spec.
Qed.

(** [loadQuestions] resolves exactly for the banks that were fetched and are
    valid, and then with the bank itself. *)
Lemma loadQuestions_Normal w qs :
  completion loadQuestions w = Normal qs ↔
  res_ok (questions_json w) = true ∧ qs = res_json (questions_json w) ∧
  valid_questions qs.
Proof.
  unfold completion, loadQuestions.
  destruct (res_ok (questions_json w)); simpl; [|intuition congruence].
  unfold valid_questions. unfold mbind at 1 2. unfold Completion_bind at 1 2.
  case_bool_decide as Hlen; simpl; [|intuition congruence].
  match goal with |- context [for_of ?xs ?body] =>
    pose proof (for_of_Normal xs body) as Hfor;
    assert (Forall (λ x, body x = Normal ()) xs ↔ Forall valid_category xs) as Hvalid
      by (apply Forall_proper; [|done]; intros c; apply category_check_spec);
    rewrite Hvalid in Hfor;
    destruct (for_of xs body) as [[]| |e]
  end.
  - intuition congruence.
  - split; [done|]. intros (_ & -> & _ & Hall). by apply Hfor in Hall.
  - split; [done|]. intros (_ & -> & _ & Hall). by apply Hfor in Hall.
Qed.

Lemma makeInitialBoardState_size : size makeInitialBoardState = 25%nat.
Proof. vm_compute. reflexivity. Qed.

Lemma makeInitialBoardState_false :
  map_Forall (λ _ used, used = false) makeInitialBoardState.
Proof. apply (bool_decide_unpack _). vm_compute. reflexivity. Qed.

Lemma loadQuestions_run w :
  res_ok (questions_json w) = true → valid_questions (res_json (questions_json w)) →
  loadQuestions w = (Normal (res_json (questions_json w)), w).
Proof.
  intros Hok Hvalid.
  pose proof (loadQuestions_world w) as Hworld.
  pose proof (proj2 (loadQuestions_Normal w (res_json (questions_json w)))) as Hnormal.
  unfold exec, completion in *. destruct (loadQuestions w) as [c w'].
  simpl in *. subst w'. by rewrite Hnormal.
Qed.

Lemma for_of_Throw {A} (xs : list A) (body : A → Completion unit) e :
  for_of xs body = Throw e → ∃ x, x ∈ xs ∧ body x = Throw e.
Proof.
  induction xs as [|x xs IH]; simpl; [done|].
  unfold mbind, Completion_bind. destruct (body x) as [[]| |e'] eqn:Hx.
  - intros (y & Hy & Hbody)%IH. exists y. split; [by right|done].
  - done.
  - intros [= <-]. exists x. split; [by left|done].
Qed.

Lemma loadQuestions_Throw w e :
  completion loadQuestions w = Throw e → e ∈ loadQuestions_errors.
Proof.
  unfold completion, loadQuestions, loadQuestions_errors.
  destruct (res_ok (questions_json w)); simpl; [|intros [= <-]; set_solver].
  unfold mbind at 1 2. unfold Completion_bind at 1 2.
  case_bool_decide; simpl; [|intros [= <-]; set_solver].
  match goal with |- context [for_of ?xs ?body] =>
    destruct (for_of xs body) as [[]| |e'] eqn:Hfor end; try done.
  intros [= ->]. apply for_of_Throw in Hfor as (c & _ & Hc).
  unfold mbind, Completion_bind in Hc.
  destruct (_ || _); simpl in Hc; [injection Hc as <-; set_solver|].
  destruct (negb (String.eqb _ _)); simpl in Hc; [injection Hc as <-; set_solver|].
  apply for_of_Throw in Hc as (clue & _ & Hclue).
  destruct (_ || _); [injection Hclue as <-; set_solver|done].
Qed.

(** A bank that was not fetched or is not valid is refused with one of the
    errors, the world left as it was. *)
Lemma loadQuestions_rejects w :
  ¬ (res_ok (questions_json w) = true ∧ valid_questions (res_json (questions_json w))) →
  ∃ e, e ∈ loadQuestions_errors ∧ loadQuestions w = (Throw e, w).
Proof.
  intros Hinvalid.
  pose proof (loadQuestions_world w) as Hworld.
  pose proof (loadQuestions_no_return w) as Hreturn.
  pose proof (loadQuestions_Normal w) as Hnormal.
  pose proof (loadQuestions_Throw w) as Hthrow.
  unfold exec, completion in *. destruct (loadQuestions w) as [[qs| |e] w']; simpl in *;
    subst w'.
  - destruct (Hnormal qs) as [(Hok & -> & Hvalid) _]; [done|]. by destruct Hinvalid.
  - done.
  - exists e. split; [by apply Hthrow|done].
Qed.

(** A valid bank: the room is written, the host's [appState] is filled in,
    the board is drawn and the host listens to the room, its snapshot being
    the document just written. *)
Lemma createRoomAsHost_run w :
  res_ok (questions_json w) = true → valid_questions (res_json (questions_json w)) →
  ∃ w', createRoomAsHost w = (Normal (), w') ∧
    db w' = <[roomPath ("JEP-" +:+ pretty (random_n w)) :=
                resolve_room (server_now w) initial]> (db w) ∧
    store_log w' = call_set (roomPath ("JEP-" +:+ pretty (random_n w))) :: store_log w ∧
    mode (app w') = Some host ∧
    roomCode (app w') = Some ("JEP-" +:+ pretty (random_n w)) ∧
    questions (app w') = Some (res_json (questions_json w)) ∧
    boardIndex (app w') = Some (buildBoardIndex (res_json (questions_json w))) ∧
    roomRef (app w') = Some (roomPath ("JEP-" +:+ pretty (random_n w))) ∧
    unsub (app w') = [roomPath ("JEP-" +:+ pretty (random_n w))] ∧
    roomData (app w') = Some (resolve_room (server_now w) initial) ∧
    board_tiles (dom w') = tile_keys.
Proof.
  intros Hok Hvalid. unfold createRoomAsHost, fn.
  rewrite run_bind, (loadQuestions_run w Hok Hvalid).
  unfold ref_set. run_notify w1 F1.
  unfold renderBoard, fn. repeat (rewrite run_bind; simpl).
  match goal with |- context [subscribeToRoom ?w0] =>
    destruct (subscribeToRoom_run w0 (roomPath ("JEP-" +:+ pretty (random_n w))))
      as (w2 & -> & F2 & Hu2 & Hr2); [done|]
  end.
  exists w2. split; [done|].
  destruct F1 as [Hdb1 Hlog1 _ _ _ _ _ _ _ _ _ _ _ _ _ _ _].
  destruct F2 as [Hdb2 Hlog2 _ _ _ _ _ _ Hmode2 Hcode2 _ _ Hqs2 Hindex2 Href2 Htiles2 _].
  simpl in *. repeat split; try congruence.
  - rewrite Hr2, Hdb1. apply lookup_insert_eq.
  - by rewrite Htiles2.
Qed.

(** C9, amended.  Room creation validates the fetched bank before it
    writes.  When the bank was fetched and has exactly 5 categories, each with
    a title and exactly 5 clues whose values are 100, 200, 300, 400, 500 in
    some order, every clue with a non-empty question and answer,
    [createRoomAsHost] completes and its one database call is the [set] of the
    initial document under the room's path.  In every other case it throws one
    of the errors of [loadQuestions] and leaves the whole world -- the
    database, the log of database calls, [appState] -- as it was: no document
    is written.  The initial document has phase [board], no buzz, both scores
    [0] and 25 [boardUsed] entries, all [false]. *)
Theorem createRoomAsHost_validates_before_writing w :
  (res_ok (questions_json w) = true ∧ valid_questions (res_json (questions_json w)) →
   completion createRoomAsHost w = Normal () ∧
   db (exec createRoomAsHost w) =
     <[roomPath ("JEP-" +:+ pretty (random_n w)) :=
         resolve_room (server_now w) initial]> (db w) ∧
   store_log (exec createRoomAsHost w) =
     call_set (roomPath ("JEP-" +:+ pretty (random_n w))) :: store_log w) ∧
  (¬ (res_ok (questions_json w) = true ∧
      valid_questions (res_json (questions_json w))) →
   ∃ e, e ∈ loadQuestions_errors ∧ createRoomAsHost w = (Throw e, w)) ∧
  phase (resolve_room (server_now w) initial) = Board ∧
  activeClueKey (resolve_room (server_now w) initial) = None ∧
  buzz (resolve_room (server_now w) initial)
    = {| firstBuzzTeam := None; firstBuzzAt := None |} ∧
  score (of_team1 (teams (resolve_room (server_now w) initial))) = Some 0 ∧
  score (of_team2 (teams (resolve_room (server_now w) initial))) = Some 0 ∧
  size (boardUsed (resolve_room (server_now w) initial)) = 25%nat ∧
  map_Forall (λ _ used, used = false)
    (boardUsed (resolve_room (server_now w) initial)).
Proof.
  split; [|split; [|repeat split; simpl;
            auto using makeInitialBoardState_size, makeInitialBoardState_false]].
  - intros [Hok Hvalid].
    destruct (createRoomAsHost_run w Hok Hvalid) as (w' & Hrun & Hdb & Hlog & _).
    unfold completion, exec. by rewrite Hrun.
  - intros (e & He & Hload)%loadQuestions_rejects. exists e. split; [done|].
    unfold createRoomAsHost, fn. by rewrite run_bind, Hload.
Qed.

Lemma sample_questions_valid : valid_questions sample_questions.
Proof.
  apply (loadQuestions_Normal fresh_page sample_questions). vm_compute. reflexivity.
Qed.

Lemma createRoomAsHost_validates_before_writing_witness :
  completion createRoomAsHost fresh_page = Normal () ∧
  db (exec createRoomAsHost fresh_page) =
    <[sample_room := resolve_room 1000 initial]> (db fresh_page) ∧
  store_log (exec createRoomAsHost fresh_page) =
    call_set sample_room :: store_log fresh_page.
Proof.
  destruct (createRoomAsHost_validates_before_writing fresh_page) as [H _].
  apply H. split; [reflexivity|apply sample_questions_valid].
Defined.

Lemma untitled_questions_specified : specified_valid_questions untitled_questions.
Proof.
  destruct sample_questions_valid as [_ Hcats].
  split; [reflexivity|].
  apply Forall_fmap, Forall_forall. intros t _. simpl.
  rewrite Forall_forall in Hcats.
  destruct (Hcats (sample_category "A")) as (_ & Hlen & Hvalues & Hclues);
    [apply list_elem_of_here|]. done.
Qed.

(** C9 as stated fails: a bank that passes every check the claim lists -- 5
    categories, 5 clues each with the five values, every question and answer
    non-empty -- but whose third category has no title is refused, and no
    document is written. *)
Lemma createRoomAsHost_rejects_untitled_category :
  specified_valid_questions untitled_questions ∧
  res_ok (questions_json fresh_page_untitled) = true ∧
  res_json (questions_json fresh_page_untitled) = untitled_questions ∧
  createRoomAsHost fresh_page_untitled
    = (Throw "Each category must have a title and exactly 5 clues",
       fresh_page_untitled).
Proof.
  split; [apply untitled_questions_specified|]. vm_compute. repeat split.
Qed.

(** ** The board index of a valid bank has every tile *)

Lemma index_clues_is_Some (i : Z) (t : string) (cl : list Clue)
    (m : gmap string IndexedClue) key :
  is_Some (m !! key) →
  is_Some (foldl (λ map clue,
                    <[clueKey i (value clue) :=
                        {| ci := i; the_clue := clue; categoryTitle := t |}]> map)
                 m cl !! key).
Proof.
  revert m. induction cl as [|clue cl IH]; intros m Hm; simpl; [done|].
  apply IH. rewrite lookup_insert_is_Some.
  destruct (decide (clueKey i (value clue) = key)); auto.
Qed.

Lemma index_clues_member (i : Z) (t : string) (cl : list Clue)
    (m : gmap string IndexedClue) clue :
  clue ∈ cl →
  is_Some (foldl (λ map clue,
                    <[clueKey i (value clue) :=
                        {| ci := i; the_clue := clue; categoryTitle := t |}]> map)
                 m cl !! clueKey i (value clue)).
Proof.
  revert m. induction cl as [|c cl IH]; intros m Hin; simpl.
  { by apply elem_of_nil in Hin. }
  apply elem_of_cons in Hin as [->|Hin]; [|by apply IH].
  apply index_clues_is_Some. rewrite lookup_insert_eq. by eexists.
Qed.

Lemma index_categories_is_Some (cats : list (nat * Category))
    (m : gmap string IndexedClue) key :
  is_Some (m !! key) →
  is_Some (foldl (λ map '(i, cat),
                    foldl (λ map clue,
                             <[clueKey (Z.of_nat i) (value clue) :=
                                 {| ci := Z.of_nat i; the_clue := clue;
                                    categoryTitle := title cat |}]> map)
                          map (clues cat))
                 m cats !! key).
Proof.
  revert m. induction cats as [|[i cat] cats IH]; intros m Hm; simpl; [done|].
  by apply IH, index_clues_is_Some.
Qed.

Lemma index_categories_member (cats : list (nat * Category))
    (m : gmap string IndexedClue) i cat clue :
  (i, cat) ∈ cats → clue ∈ clues cat →
  is_Some (foldl (λ map '(i, cat),
                    foldl (λ map clue,
                             <[clueKey (Z.of_nat i) (value clue) :=
                                 {| ci := Z.of_nat i; the_clue := clue;
                                    categoryTitle := title cat |}]> map)
                          map (clues cat))
                 m cats !! clueKey (Z.of_nat i) (value clue)).
Proof.
  revert m. induction cats as [|[j c] cats IH]; intros m Hin Hclue; simpl.
  { by apply elem_of_nil in Hin. }
  apply elem_of_cons in Hin as [[= <- <-]|Hin]; [|by apply IH].
  by apply index_categories_is_Some, index_clues_member.
Qed.

Lemma buildBoardIndex_has_clue qs (i : nat) v :
  valid_questions qs → (i < 5)%nat → v ∈ VALUES →
  is_Some (buildBoardIndex qs !! clueKey (Z.of_nat i) v).
Proof.
  intros [Hlen Hcats] Hi Hv.
  destruct (lookup_lt_is_Some_2 (categories qs) i) as [cat Hcat]; [lia|].
  rewrite Forall_lookup in Hcats.
  destruct (Hcats i cat Hcat) as (_ & _ & Hvalues & _).
  rewrite <-Hvalues in Hv.
  apply list_elem_of_fmap in Hv as (clue & -> & Hclue).
  apply (index_categories_member _ _ i cat clue); [|done].
  apply elem_of_lookup_imap. by exists i, cat.
Qed.

(** Every tile [renderBoard] creates has its clue in the index built from a
    bank that passed [loadQuestions]. *)
Lemma tiles_are_indexed qs key :
  valid_questions qs →
  key ∈ (v ← VALUES; ci ← [0; 1; 2; 3; 4]; [clueKey ci v]) →
  is_Some (buildBoardIndex qs !! key).
Proof.
  intros Hvalid (v & (ci & Hkey & Hci)%list_elem_of_bind & Hv)%list_elem_of_bind.
  apply list_elem_of_singleton in Hkey as ->.
  assert (∃ i : nat, (i < 5)%nat ∧ ci = Z.of_nat i) as (i & Hi & ->).
  { rewrite !elem_of_cons, elem_of_nil in Hci.
    destruct Hci as [->|[->|[->|[->|[->|[]]]]]];
      [exists 0%nat|exists 1%nat|exists 2%nat|exists 3%nat|exists 4%nat];
      (split; [lia|done]). }
  by apply buildBoardIndex_has_clue.
Qed.

(** ** Opening a clue, returning to the board *)

Lemma exec_openClueModal clueKey ph w : exec (openClueModal clueKey ph) w = w.
Proof. unfold exec. by rewrite openClueModal_noop. Qed.

(** C2. With the host's snapshot [room] of the document, a key of the board
    index (every tile is one, [tiles_are_indexed]) and a room reference: when
    the snapshot's phase is [board] and its [boardUsed] flag for the key is
    [false] (or absent), the tile click issues one [update], which sets phase
    [question], [activeClueKey] to the key, both buzz fields to null and
    [timer.endAtMs] to the synchronized now plus [durationSec * 1000] (20 s
    when [durationSec] is absent), and leaves every other field of the stored
    document as it is; in every other case -- the flag is [true], or the
    phase is not [board] -- the click changes nothing at all. *)
Theorem onHostTileClick_opens_unused_clue w clueKey room index clue ref :
  roomData (app w) = Some room →
  boardIndex (app w) = Some index → index !! clueKey = Some clue →
  roomRef (app w) = Some ref →
  match phase room, boardUsed room !! clueKey with
  | Board, Some false | Board, None =>
      db (exec (onHostTileClick clueKey) w) =
        alter (λ d,
          {| createdAt := createdAt d;
             phase := Question;
             activeClueKey := Some clueKey;
             teams := teams d;
             buzz := {| firstBuzzTeam := None; firstBuzzAt := None |};
             timer :=
               {| durationSec := durationSec (timer d);
                  endAtMs := Some (date_now w + serverOffsetMs w +
                                   nullish (durationSec (timer room)) 20 * 1000) |};
             boardUsed := boardUsed d;
             players := players d |}) ref (db w) ∧
      store_log (exec (onHostTileClick clueKey) w) =
        call_update ref
          [ phase_to Question; activeClueKey_to (Some clueKey);
            buzz_firstBuzzTeam_to None; buzz_firstBuzzAt_to None;
            timer_endAtMs_to
              (Some (date_now w + serverOffsetMs w +
                     nullish (durationSec (timer room)) 20 * 1000)) ]
        :: store_log w
  | _, _ => exec (onHostTileClick clueKey) w = w
  end.
Proof.
  intros Hroom Hindex Hclue Href.
  unfold onHostTileClick. rewrite exec_fn, exec_bind. simpl.
  rewrite Hroom. simpl. rewrite exec_bind.
  assert (∀ patch,
    let w' := exec (ref_update ref patch ;; openClueModal clueKey Question) w in
    db w' = alter (apply_patch (server_now w) patch) ref (db w) ∧
    store_log w' = call_update ref patch :: store_log w) as Hopen.
  { intros patch. simpl. rewrite exec_bind.
    destruct (ref_update_run ref patch w) as (w' & -> & ? & ?).
    by rewrite exec_openClueModal. }
  destruct (phase room) eqn:Hphase, (boardUsed room !! clueKey) as [[]|] eqn:Hused;
    simpl; try done.
  all: exec_simpl; rewrite ?Hphase, ?Hused; exec_simpl; try done.
  all: rewrite Hindex; exec_simpl; rewrite Hclue; exec_simpl; rewrite Href; simpl.
  all: match goal with |- context [ref_update _ ?patch] =>
         destruct (Hopen patch) as [-> ->] end.
  all: split; [|done]; by apply alter_ext.
Qed.

Lemma onHostTileClick_opens_unused_clue_witness :
  store_log (exec (onHostTileClick "c2_v300") host_before_open) =
    call_update sample_room
      [ phase_to Question; activeClueKey_to (Some "c2_v300");
        buzz_firstBuzzTeam_to None; buzz_firstBuzzAt_to None;
        timer_endAtMs_to (Some 24000) ]
    :: store_log host_before_open.
Proof.
  pose proof (onHostTileClick_opens_unused_clue host_before_open "c2_v300"
    (default initial (roomData (app host_before_open)))
    (default ∅ (boardIndex (app host_before_open)))
    {| ci := 2; the_clue := {| value := 300; question := "Q"; answer := "A" |};
       categoryTitle := "C" |}
    sample_room) as H.
  replace (phase (default initial (roomData (app host_before_open))))
    with Board in H by (vm_compute; reflexivity).
  replace (boardUsed (default initial (roomData (app host_before_open))) !! "c2_v300")
    with (Some false) in H by (vm_compute; reflexivity).
  destruct H as [_ H].
  - apply Some_default. by_evaluation.
  - apply Some_default. by_evaluation.
  - vm_compute. reflexivity.
  - vm_compute. reflexivity.
  - rewrite H. vm_compute. reflexivity.
Defined.

(** C4. When the host returns to the board with a snapshot whose
    [activeClueKey] is a (non-empty) key, whatever the snapshot's phase, the
    one [update] issued sets [boardUsed[key]] to [true], phase to [board],
    [activeClueKey] and [timer.endAtMs] to null and both buzz fields to null,
    and leaves every other field of the stored document as it is. *)
Theorem returnToBoardAndMarkUsed_resets_room w room key ref :
  mode (app w) = Some host →
  roomData (app w) = Some room →
  activeClueKey room = Some key → key ≠ "" →
  roomRef (app w) = Some ref →
  db (exec returnToBoardAndMarkUsed w) =
    alter (λ d,
      {| createdAt := createdAt d;
         phase := Board;
         activeClueKey := None;
         teams := teams d;
         buzz := {| firstBuzzTeam := None; firstBuzzAt := None |};
         timer := {| durationSec := durationSec (timer d); endAtMs := None |};
         boardUsed := <[key := true]> (boardUsed d);
         players := players d |}) ref (db w) ∧
  store_log (exec returnToBoardAndMarkUsed w) =
    call_update ref
      [ boardUsed_to key true; phase_to Board; activeClueKey_to None;
        timer_endAtMs_to None; buzz_firstBuzzTeam_to None;
        buzz_firstBuzzAt_to None ]
    :: store_log w.
Proof.
  intros Hmode Hroom Hkey Hne Href.
  unfold returnToBoardAndMarkUsed. rewrite exec_fn, exec_bind. simpl.
  rewrite Hmode, Hroom. simpl. rewrite Hkey. simpl.
  apply truthy_string_spec in Hne. rewrite Hne. simpl.
  exec_simpl. rewrite Href. simpl. exec_simpl.
  match goal with |- context [ref_update ref ?patch] =>
    destruct (ref_update_run ref patch w) as (w' & -> & Hdb & Hlog) end.
  assert (keeps (λ w1, db w1 = db w' ∧ store_log w1 = store_log w') closeClueModal)
    as Hclose by (repeat keeps_step; by intros).
  destruct (Hclose w') as [-> ->]; [done|].
  rewrite Hdb, Hlog. split; [|done]. by apply alter_ext.
Qed.

Lemma returnToBoardAndMarkUsed_resets_room_witness :
  store_log (exec returnToBoardAndMarkUsed host_in_question) =
    call_update sample_room
      [ boardUsed_to "c2_v300" true; phase_to Board; activeClueKey_to None;
        timer_endAtMs_to None; buzz_firstBuzzTeam_to None;
        buzz_firstBuzzAt_to None ]
    :: store_log host_in_question.
Proof.
  apply (returnToBoardAndMarkUsed_resets_room host_in_question
           (default initial (roomData (app host_in_question)))
           "c2_v300" sample_room).
  - vm_compute. reflexivity.
  - apply Some_default. by_evaluation.
  - vm_compute. reflexivity.
  - vm_compute. discriminate.
  - vm_compute. reflexivity.
Defined.

(** ** The client-side gate of the buzz *)

(** [playerBuzz] issues the transaction exactly when the snapshot's phase is
    [question] and its deadline is set and not passed; the snapshot's buzz
    fields are not read. *)
Lemma playerBuzz_gate w :
  store_log (exec playerBuzz w) =
  match roomData (app w), roomRef (app w) with
  | Some room, Some ref =>
      if bool_decide (phase room = Question)
         && truthy_num (endAtMs (timer room))
         && bool_decide (date_now w + serverOffsetMs w
                         < default 0 (endAtMs (timer room)))
      then call_transaction (ref +:+ "/buzz") :: store_log w
      else store_log w
  | _, _ => store_log w
  end.
Proof.
  unfold playerBuzz. exec_simpl.
  destruct (roomData (app w)) as [room|]; simpl; [|done].
  exec_simpl.
  destruct (roomRef (app w)) as [ref|] eqn:Href.
  - case_bool_decide; simpl; [|done].
    exec_simpl. destruct (truthy_num (endAtMs (timer room))); simpl; [|done].
    case_bool_decide; simpl.
    + by rewrite bool_decide_eq_false_2 by lia.
    + rewrite bool_decide_eq_true_2 by lia. exec_simpl.
      apply buzz_transaction_store.
  - case_bool_decide; simpl; [|done].
    exec_simpl. destruct (truthy_num (endAtMs (timer room))); simpl; [|done].
    by case_bool_decide.
Qed.

(** The sibling of [playerBuzz]: the button is disabled as soon as the
    snapshot records a winner. *)
Lemma updatePlayerBuzzButton_disables_on_winner w room t :
  mode (app w) = Some player → roomData (app w) = Some room →
  firstBuzzTeam (buzz room) = Some t →
  btnBuzz_disabled (dom (exec updatePlayerBuzzButton w)) = true.
Proof.
  intros Hmode Hroom Hwinner. unfold updatePlayerBuzzButton.
  exec_simpl. rewrite Hmode, Hroom. exec_simpl. rewrite Hwinner. simpl.
  by rewrite andb_false_r.
Qed.

(** In every listener run the button of a player is set from the snapshot
    the run has just stored. *)
Lemma updatePlayerBuzzButton_gate w :
  winner_disables_button (client_of (exec updatePlayerBuzzButton w)).
Proof.
  unfold updatePlayerBuzzButton. exec_simpl.
  case_bool_decide as Hmode; simpl.
  - destruct (roomData (app w)) as [room|] eqn:Hroom; simpl.
    + exec_simpl. intros _ room' Hroom' Hwinner. simpl in *.
      rewrite Hroom in Hroom'. injection Hroom' as <-.
      by rewrite Hwinner, andb_false_r.
    + exec_simpl. intros _ room' Hroom'. simpl in Hroom'. congruence.
  - intros Hplayer. simpl in Hplayer. done.
Qed.

Lemma updateAllUI_gate w :
  winner_disables_button (client_of (exec updateAllUI w)).
Proof.
  destruct (decide (mode (app w) = Some host)) as [Hhost|Hhost].
  - assert (keeps (λ w', mode (app w') = Some host) updateAllUI) as Hkeeps.
    { repeat keeps_step; by intros. }
    intros Hplayer. simpl in Hplayer. rewrite (Hkeeps w Hhost) in Hplayer. done.
  - unfold updateAllUI. rewrite exec_fn, exec_bind. simpl.
    destruct (roomData (app w)) as [room|] eqn:Hroom.
    + unfold truthy_or_return. rewrite exec_bind. simpl.
      rewrite bool_decide_eq_false_2 by done. rewrite exec_bind. simpl.
      apply updatePlayerBuzzButton_gate.
    + simpl. rewrite exec_bind. simpl. intros _ room' Hroom'. simpl in Hroom'. congruence.
Qed.

Lemma handler_gate v w : winner_disables_button (client_of (exec (handler v) w)).
Proof.
  unfold handler. rewrite exec_fn, exec_bind. simpl. rewrite exec_bind.
  destruct v as [room|]; simpl.
  - apply updateAllUI_gate.
  - by intros _ room'.
Qed.

Lemma keeps_notify_gate path :
  keeps (λ w, winner_disables_button (client_of w)) (notify path).
Proof.
  intros w Hw. unfold exec, notify. case_bool_decide; simpl; [|done].
  apply handler_gate.
Qed.

Lemma keeps_updatePlayerBuzzButton_gate :
  keeps (λ w, winner_disables_button (client_of w)) updatePlayerBuzzButton.
Proof. intros w _. apply updatePlayerBuzzButton_gate. Qed.

Ltac keeps_gate_step :=
  lazymatch goal with
  | |- keeps _ (notify _) => apply keeps_notify_gate
  | |- keeps _ updatePlayerBuzzButton => apply keeps_updatePlayerBuzzButton_gate
  | _ => keeps_step
  end.

Lemma subscribeToRoom_gate w ref :
  roomRef (app w) = Some ref →
  winner_disables_button (client_of (exec subscribeToRoom w)).
Proof.
  intros Href. unfold subscribeToRoom, clearListeners. exec_simpl.
  rewrite Href. exec_simpl. unfold exec, notify. simpl.
  rewrite bool_decide_eq_true_2 by set_solver. apply handler_gate.
Qed.

Lemma joinRoomAsPlayer_gate code team name :
  keeps (λ w, winner_disables_button (client_of w)) (joinRoomAsPlayer code team name).
Proof.
  intros w Hw. unfold joinRoomAsPlayer, ref_get. rewrite exec_fn, exec_bind. simpl.
  destruct (db w !! roomPath code) as [d|]; simpl; [|by exec_simpl].
  exec_simpl. unfold player_set. run_simpl. rewrite notify_Normal.
  apply (subscribeToRoom_gate _ (roomPath code)).
  assert (keeps (λ w', roomRef (app w') = Some (roomPath code))
                (notify (roomPath code))) as Hkeeps.
  { repeat keeps_step; by intros. }
  by apply Hkeeps.
Qed.

Lemma dispatch_keeps_gate e :
  keeps (λ w, winner_disables_button (client_of w)) (dispatch e).
Proof.
  destruct e; unfold dispatch;
    try (apply keeps_try_catch, joinRoomAsPlayer_gate);
    repeat keeps_gate_step.
  all: try done.
  all: intros w0 Hw0 Hmode; simpl in *; try done.
Qed.

Lemma reachable_gate s :
  reachable s → Forall winner_disables_button (s_clients s).
Proof.
  intros [ls ->]. induction ls as [|l ls IH] using rev_ind; [constructor|].
  rewrite run_from_snoc.
  destruct l as [hidden disabled device|i env e]; simpl.
  - apply Forall_app. split; [done|]. by repeat constructor.
  - destruct (s_clients _ !! i) as [c|] eqn:Hi; [|done]. simpl.
    apply Forall_insert; [done|].
    apply (dispatch_keeps_gate e (world_of (run_from initial_system ls) c env)).
    rewrite Forall_lookup in IH. apply (IH i c Hi).
Qed.

Lemma playerBuzz_returns w :
  match roomData (app w) with
  | Some room =>
      bool_decide (phase room = Question)
      && truthy_num (endAtMs (timer room))
      && bool_decide (date_now w + serverOffsetMs w < default 0 (endAtMs (timer room)))
  | None => false
  end = false →
  playerBuzz w = (Normal (), w).
Proof.
  intros Hclosed. unfold playerBuzz, fn. run_simpl.
  destruct (roomData (app w)) as [room|]; simpl; [|done]. run_simpl.
  destruct (bool_decide (phase room = Question)); simpl in *; [|done]. run_simpl.
  destruct (truthy_num (endAtMs (timer room))); simpl in *; [|done].
  apply bool_decide_eq_false in Hclosed. by rewrite bool_decide_eq_true_2 by lia.
Qed.

(** C3.  A click on the buzz button of a client that joined as a player, in
    any reachable state of the system and at any time.  When, per the
    client's snapshot, the phase is not [question], or the deadline is unset or
    has passed according to the synchronized clock, or a winner is already
    recorded, no database call is issued and the database stays as it is; so a
    call is issued only when the three conditions hold.  [playerBuzz] checks
    the phase and the deadline; [updatePlayerBuzzButton] checks the recorded
    winner and disables the button in the same run of the listener that
    stores the snapshot, so that no click reaches [playerBuzz].  When the three
    conditions hold and the button is enabled, the buzz transaction is
    sent. *)
Theorem playerBuzz_gate_is_enforced s i c env :
  reachable s → s_clients s !! i = Some c → mode (c_app c) = Some player →
  (specified_buzz_gate (roomData (c_app c)) (e_date_now env + e_serverOffsetMs env)
     = false →
   s_log (sys_do s (client_event i env btnBuzz_click)) = s_log s ∧
   s_db (sys_do s (client_event i env btnBuzz_click)) = s_db s) ∧
  (s_log (sys_do s (client_event i env btnBuzz_click)) ≠ s_log s →
   specified_buzz_gate (roomData (c_app c)) (e_date_now env + e_serverOffsetMs env)
     = true) ∧
  (specified_buzz_gate (roomData (c_app c)) (e_date_now env + e_serverOffsetMs env)
     = true →
   btnBuzz_disabled (c_dom c) = false →
   ∀ ref, roomRef (c_app c) = Some ref →
          s_log (sys_do s (client_event i env btnBuzz_click))
            = call_transaction (ref +:+ "/buzz") :: s_log s).
Proof.
  intros Hs Hc Hmode.
  pose proof (reachable_gate s Hs) as Hgate. rewrite Forall_lookup in Hgate.
  specialize (Hgate i c Hc Hmode).
  assert (specified_buzz_gate (roomData (c_app c))
            (e_date_now env + e_serverOffsetMs env) = false →
          s_log (sys_do s (client_event i env btnBuzz_click)) = s_log s ∧
          s_db (sys_do s (client_event i env btnBuzz_click)) = s_db s) as Hclosed.
  { intros Hfalse. unfold sys_do. rewrite Hc. cbv zeta. cbn [s_db s_log].
    unfold dispatch. rewrite exec_bind. simpl.
    destruct (btnBuzz_disabled (c_dom c)) eqn:Hbutton; [by split|].
    rewrite exec_try_catch. unfold exec. rewrite playerBuzz_returns; [done|]. simpl.
    unfold specified_buzz_gate in Hfalse.
    destruct (roomData (c_app c)) as [room|] eqn:Hroom; [|done].
    destruct (truthy_team (firstBuzzTeam (buzz room))) eqn:Hwinner.
    - by specialize (Hgate room eq_refl Hwinner).
    - by rewrite andb_true_r in Hfalse. }
  split; [done|]. split.
  - intros Hsent. destruct (specified_buzz_gate _ _); [done|].
    by destruct Hclosed as [Hlog _].
  - intros Htrue Hbutton ref Href. unfold sys_do. rewrite Hc. cbv zeta. cbn [s_log].
    unfold dispatch. rewrite exec_bind. simpl. rewrite Hbutton, exec_try_catch.
    rewrite playerBuzz_gate. simpl. rewrite Href.
    unfold specified_buzz_gate in Htrue.
    destruct (roomData (c_app c)) as [room|]; [|done].
    apply andb_prop in Htrue as [Htrue _]. by rewrite Htrue.
Qed.

Lemma playerBuzz_gate_is_enforced_witness :
  (s_log (sys_do (run_from initial_system (clue_opened ++ ann_buzzes))
                 (client_event 2 (sample_env 5500) btnBuzz_click))
     = s_log (run_from initial_system (clue_opened ++ ann_buzzes)) ∧
   s_db (sys_do (run_from initial_system (clue_opened ++ ann_buzzes))
                (client_event 2 (sample_env 5500) btnBuzz_click))
     = s_db (run_from initial_system (clue_opened ++ ann_buzzes))) ∧
  s_log (sys_do (run_from initial_system clue_opened)
                (client_event 1 (sample_env 5000) btnBuzz_click))
    = call_transaction (sample_room +:+ "/buzz")
        :: s_log (run_from initial_system clue_opened).
Proof.
  split.
  - destruct (playerBuzz_gate_is_enforced
                (run_from initial_system (clue_opened ++ ann_buzzes)) 2
                (default (fresh_client true true "")
                   (s_clients (run_from initial_system (clue_opened ++ ann_buzzes)) !! 2%nat))
                (sample_env 5500)) as [Hclosed _].
    + by eexists.
    + apply Some_default. by_evaluation.
    + vm_compute. reflexivity.
    + apply Hclosed. vm_compute. reflexivity.
  - destruct (playerBuzz_gate_is_enforced
                (run_from initial_system clue_opened) 1
                (default (fresh_client true true "")
                   (s_clients (run_from initial_system clue_opened) !! 1%nat))
                (sample_env 5000)) as (_ & _ & Hopen).
    + by eexists.
    + apply Some_default. by_evaluation.
    + vm_compute. reflexivity.
    + apply Hopen; vm_compute; reflexivity.
Defined.

(** ** The reveal and the score: what the unpopulated modal costs *)

(** What the handler of the clue card does when it runs: with the host's
    snapshot in phase [question] it writes phase [answer] and nothing else,
    otherwise it writes nothing. *)
Lemma clueCard_onclick_handler_store w room ref :
  mode (app w) = Some host → roomData (app w) = Some room →
  roomRef (app w) = Some ref →
  if bool_decide (phase room = Question) then
    db (exec clueCard_onclick_handler w) = alter (set_phase Answer) ref (db w) ∧
    store_log (exec clueCard_onclick_handler w)
      = call_update ref [phase_to Answer] :: store_log w
  else exec clueCard_onclick_handler w = w.
Proof.
  intros Hmode Hroom Href. unfold clueCard_onclick_handler.
  exec_simpl. rewrite Hmode, Hroom. exec_simpl.
  case_bool_decide; simpl; [|done].
  rewrite Href. exec_simpl.
  destruct (ref_update_run ref [phase_to Answer] w) as (w' & -> & Hdb & Hlog).
  simpl. by rewrite Hdb, Hlog.
Qed.

(** Had the handler been installed: run by a host whose snapshot has the
    phase of the stored document, it keeps phase and active clue coupled. *)
Lemma clueCard_onclick_handler_keeps_coupling w room ref d :
  mode (app w) = Some host → roomData (app w) = Some room →
  roomRef (app w) = Some ref → db w !! ref = Some d →
  phase room = phase d → coupled d →
  ∃ d', db (exec clueCard_onclick_handler w) !! ref = Some d' ∧ coupled d'.
Proof.
  intros Hmode Hroom Href Hd Hphase Hcoupled.
  pose proof (clueCard_onclick_handler_store w room ref Hmode Hroom Href) as Hrun.
  case_bool_decide as Hq.
  - destruct Hrun as [-> _]. exists (set_phase Answer d).
    rewrite lookup_alter_eq, Hd. split; [done|].
    unfold coupled in *. simpl. rewrite Hphase in Hq. intuition congruence.
  - rewrite Hrun. by exists d.
Qed.

(** But no reached client has that handler on its clue card, so a click on
    the card changes neither the database nor the log of calls. *)
Lemma clueCard_click_changes_nothing s i env :
  reachable s →
  s_db (sys_do s (client_event i env clueCard_click)) = s_db s ∧
  s_log (sys_do s (client_event i env clueCard_click)) = s_log s.
Proof.
  intros [_ Hclients]%reachable_room_inv. unfold sys_do.
  destruct (s_clients s !! i) as [c|] eqn:Hc; [|done].
  rewrite Forall_lookup in Hclients. destruct (Hclients i c Hc) as [Hcard _].
  cbv zeta. cbn [s_db s_log]. unfold exec. by rewrite clueCard_click_noop.
Qed.

(** C5: the code at the failing input.  The clue [c2_v300] is open, the
    host's snapshot is in phase [question], and the host clicks the clue
    card: no handler is installed, no database call is issued and the phase
    stays [question]. *)
Theorem clueCard_click_leaves_phase_question :
  (phase <$> roomData (app host_in_question)) = Some Question ∧
  mode (app host_in_question) = Some host ∧
  clueCard_onclick (dom host_in_question) = false ∧
  phase (doc_at sample_room
           (sys_do (run_from initial_system clue_opened)
                   (client_event 0 (sample_env 8000) clueCard_click))) = Question ∧
  s_log (sys_do (run_from initial_system clue_opened)
                (client_event 0 (sample_env 8000) clueCard_click))
    = s_log (run_from initial_system clue_opened).
Proof. vm_compute. repeat split. Qed.

(** The score transaction adds the delta to the stored score, [0] standing
    for an absent one. *)
Lemma adjustScore_store w t delta ref :
  mode (app w) = Some host → roomRef (app w) = Some ref →
  db (exec (adjustScore t delta) w) =
    alter (λ d, set_teams
                  (set_score t (Some (or_zero (score (team_of t (teams d))) + delta))
                             (teams d)) d) ref (db w).
Proof.
  intros Hmode Href. unfold adjustScore. exec_simpl. rewrite Hmode. exec_simpl.
  rewrite Href. exec_simpl. unfold score_transaction. exec_simpl.
  match goal with |- context [exec (notify ?p) ?w0] =>
    by destruct (exec_notify p w0) as [-> _] end.
Qed.

(** No reached client has a clue in [appState.activeClue]: the delta of every
    award and penalty is [0]. *)
Lemma activeClue_value_zero s i c env :
  reachable s → s_clients s !! i = Some c →
  activeClue_value (world_of s c env) = (Normal 0, world_of s c env).
Proof.
  intros [_ Hclients]%reachable_room_inv Hc.
  rewrite Forall_lookup in Hclients. destruct (Hclients i c Hc) as [_ Hclue].
  unfold activeClue_value. rewrite run_bind. simpl. by rewrite Hclue.
Qed.

(** C8: the code at the failing input.  The clue [c2_v300], worth 300, is
    open; [appState.activeClue] is null all the same; the host awards team
    1: the score transaction is issued with delta [0] and the score stays
    [0]. *)
Theorem award_adds_zero_for_open_clue :
  activeClueKey (doc_at sample_room (run_from initial_system clue_opened))
    = Some "c2_v300" ∧
  (boardIndex (app host_in_question) ≫= λ index, index !! "c2_v300"
     ≫= λ clue, Some (value (the_clue clue))) = Some 300 ∧
  activeClue (app host_in_question) = None ∧
  completion activeClue_value host_in_question = Normal 0 ∧
  score (of_team1 (teams (doc_at sample_room
    (sys_do (run_from initial_system clue_opened)
            (client_event 0 (sample_env 8000) (btnAward_click team1)))))) = Some 0 ∧
  head (s_log (sys_do (run_from initial_system clue_opened)
                      (client_event 0 (sample_env 8000) (btnAward_click team1))))
    = Some (call_transaction "rooms/JEP-1234/teams/team1/score").
Proof. vm_compute. repeat split. Qed.

(** ** The update function of the buzz transaction *)

(** C10. For every value handed to it as the current value of the buzz
    node -- null, an object with any fields, or any other JSON value -- the
    update function completes without throwing (a falsy value is replaced by
    the empty object before its property is read); it returns nothing, which
    aborts the transaction, exactly when the value's [firstBuzzTeam] is
    truthy, and otherwise returns the record made of the buzzing client's team
    and the server time-stamp placeholder. *)
Theorem buzz_update_total (teamId current : JsVal) :
  (∀ e, buzz_update teamId current ≠ Throw e) ∧
  (buzz_update teamId current = Return_ ↔ winner_recorded current = true) ∧
  buzz_update teamId current =
    if winner_recorded current then Return_
    else Normal (JObj [ ("firstBuzzTeam", teamId);
                        ("firstBuzzAt", ServerValue_TIMESTAMP) ]).
Proof.
  rewrite buzz_update_spec. by destruct (winner_recorded current).
Qed.

(** ** The keys of the board *)

Lemma free_of_append c s r :
  free_of c s = true → free_of c (s +:+ String c r) = false.
Proof.
  induction s as [|a s IH]; simpl; [by rewrite Ascii.eqb_refl|].
  intros [_ Hs]%andb_prop. rewrite IH by done. apply andb_false_r.
Qed.

Lemma append_sep_inj c s1 s2 r1 r2 :
  free_of c s1 = true → free_of c s2 = true →
  s1 +:+ String c r1 = s2 +:+ String c r2 → s1 = s2 ∧ r1 = r2.
Proof.
  revert s2. induction s1 as [|a1 s1 IH]; intros [|a2 s2]; simpl.
  - by intros _ _ [= ->].
  - intros _ [Hc _]%andb_prop [= <- _]. by rewrite Ascii.eqb_refl in Hc.
  - intros [Hc _]%andb_prop _ [= -> _]. by rewrite Ascii.eqb_refl in Hc.
  - intros [_ H1]%andb_prop [_ H2]%andb_prop [= -> Heq].
    by destruct (IH s2 H1 H2 Heq) as [-> ->].
Qed.

Lemma pretty_N_go_free_of c x s :
  (∀ d, (d < 10)%N → Ascii.eqb (pretty_N_char d) c = false) →
  free_of c s = true → free_of c (pretty_N_go x s) = true.
Proof.
  intros Hc. revert s. induction (N.lt_wf_0 x) as [x _ IH]. intros s Hs.
  destruct (decide (x = 0)%N) as [->|Hx]; [done|].
  rewrite pretty_N_go_step by lia. apply IH.
  - apply N.div_lt; lia.
  - simpl. rewrite Hs, Hc; [done|]. apply N.mod_lt. lia.
Qed.

Lemma pretty_Z_free_of_underscore (z : Z) : free_of "_" (pretty z) = true.
Proof.
  assert (∀ d, (d < 10)%N → Ascii.eqb (pretty_N_char d) "_" = false) as Hd.
  { intros d _. unfold pretty_N_char. by repeat case_match. }
  destruct z as [|p|p]; unfold pretty, pretty_Z; [done|..];
    unfold pretty, pretty_positive, pretty, pretty_N; simpl;
    by apply pretty_N_go_free_of.
Qed.

Lemma clueKey_eq (ci ci' v v' : Z) :
  clueKey ci v = clueKey ci' v' ↔ ci = ci' ∧ v = v'.
Proof.
  split; [|by intros [-> ->]].
  unfold clueKey. intros [= Heq].
  change (pretty ci +:+ String "_" (String "v" (pretty v)) =
          pretty ci' +:+ String "_" (String "v" (pretty v'))) in Heq.
  apply append_sep_inj in Heq as [Hci [= Hv]];
    [|apply pretty_Z_free_of_underscore..].
  split; by apply (inj pretty).
Qed.

(** X1.  The key of a clue determines its category index and its value: two
    keys [c<ci>_v<value>] are equal exactly when both the indices and the
    values are. *)
Theorem clueKey_inj (ci ci' v v' : Z) :
  clueKey ci v = clueKey ci' v' ↔ ci = ci' ∧ v = v'.
Proof. apply clueKey_eq. Qed.

Lemma foldl_insert_list_to_map (l : list (string * IndexedClue)) :
  foldl (λ m kv, <[kv.1 := kv.2]> m) ∅ l
  =@{gmap string IndexedClue} list_to_map (reverse l).
Proof.
  induction l as [|[k e] l IH] using rev_ind; [done|].
  by rewrite foldl_app, reverse_snoc, IH.
Qed.

Lemma buildBoardIndex_foldl (cats : list (nat * Category)) (m : gmap string IndexedClue) :
  foldl (λ map '(i, cat),
           foldl (λ map clue,
                    <[clueKey (Z.of_nat i) (value clue) :=
                        {| ci := Z.of_nat i; the_clue := clue;
                           categoryTitle := title cat |}]> map)
                 map (clues cat))
        m cats
  = foldl (λ m kv, <[kv.1 := kv.2]> m) m
      ('(i, cat) ← cats;
       (λ clue, (clueKey (Z.of_nat i) (value clue),
                 {| ci := Z.of_nat i; the_clue := clue; categoryTitle := title cat |}))
         <$> clues cat).
Proof.
  revert m. induction cats as [|[i cat] cats IH]; intros m; [done|].
  simpl. rewrite foldl_app, foldl_fmap. apply IH.
Qed.

Lemma buildBoardIndex_entries qs :
  buildBoardIndex qs = list_to_map (reverse (index_entries qs)).
Proof.
  unfold buildBoardIndex, index_entries.
  by rewrite buildBoardIndex_foldl, foldl_insert_list_to_map.
Qed.

Lemma elem_of_index_entries qs key e :
  (key, e) ∈ index_entries qs ↔
  ∃ (i : nat) cat clue,
    categories qs !! i = Some cat ∧ clue ∈ clues cat ∧
    key = clueKey (Z.of_nat i) (value clue) ∧
    e = {| ci := Z.of_nat i; the_clue := clue; categoryTitle := title cat |}.
Proof.
  unfold index_entries. rewrite list_elem_of_bind. split.
  - intros ([i cat] & Hin & Hcat). apply list_elem_of_fmap in Hin as (clue & [= -> ->] & Hclue).
    apply elem_of_lookup_imap in Hcat as (i' & cat' & [= -> ->] & Hcat).
    by exists i', cat', clue.
  - intros (i & cat & clue & Hcat & Hclue & -> & ->). exists (i, cat). split.
    + apply list_elem_of_fmap. by exists clue.
    + apply elem_of_lookup_imap. by exists i, cat.
Qed.

Lemma buildBoardIndex_lookup qs key e :
  buildBoardIndex qs !! key = Some e →
  ∃ (i : nat) cat clue,
    categories qs !! i = Some cat ∧ clue ∈ clues cat ∧
    key = clueKey (Z.of_nat i) (value clue) ∧
    e = {| ci := Z.of_nat i; the_clue := clue; categoryTitle := title cat |}.
Proof.
  rewrite buildBoardIndex_entries. intros Hin%elem_of_list_to_map_2.
  by apply elem_of_reverse, elem_of_index_entries in Hin.
Qed.

Lemma NoDup_fmap_elem {A B} (f : A → B) (l : list A) x y :
  NoDup (f <$> l) → x ∈ l → y ∈ l → f x = f y → x = y.
Proof.
  induction l as [|a l IH]; simpl; [by intros _ ?%elem_of_nil|].
  intros [Ha Hl]%NoDup_cons [->|Hx]%elem_of_cons [->|Hy]%elem_of_cons Heq; auto.
  - exfalso. apply Ha. rewrite Heq. by apply list_elem_of_fmap_2.
  - exfalso. apply Ha. rewrite <-Heq. by apply list_elem_of_fmap_2.
Qed.

Lemma NoDup_VALUES : NoDup VALUES.
Proof. apply (bool_decide_unpack _). vm_compute. exact I. Qed.

Lemma valid_category_at qs (i : nat) cat :
  valid_questions qs → categories qs !! i = Some cat →
  (i < 5)%nat ∧ valid_category cat.
Proof.
  intros [Hlen Hcats] Hcat. split.
  - rewrite <-Hlen. by eapply lookup_lt_Some.
  - rewrite Forall_lookup in Hcats. by eapply Hcats.
Qed.

Lemma buildBoardIndex_finds qs (i : nat) cat clue :
  valid_questions qs → categories qs !! i = Some cat → clue ∈ clues cat →
  buildBoardIndex qs !! clueKey (Z.of_nat i) (value clue) =
    Some {| ci := Z.of_nat i; the_clue := clue; categoryTitle := title cat |}.
Proof.
  intros Hvalid Hcat Hclue.
  destruct (valid_category_at qs i cat Hvalid Hcat) as (Hi & _ & _ & Hvalues & _).
  destruct (buildBoardIndex_has_clue qs i (value clue) Hvalid Hi) as [e He].
  { rewrite <-Hvalues. by apply list_elem_of_fmap_2. }
  rewrite He. f_equal.
  apply buildBoardIndex_lookup in He as (i' & cat' & clue' & Hcat' & Hclue' & Hkey & ->).
  apply clueKey_eq in Hkey as [Hi'%(inj Z.of_nat) Hv]. subst i'.
  rewrite Hcat in Hcat'. injection Hcat' as <-.
  f_equal. symmetry.
  apply (NoDup_fmap_elem value (clues cat)); [|done..].
  rewrite Hvalues. apply NoDup_VALUES.
Qed.

(** X2.  The board index of a bank that passed [loadQuestions] holds exactly
    the clues of the bank: an entry is found under a key exactly when it is
    a clue of the bank filed under its own key, with the index and the title
    of its category. *)
Theorem buildBoardIndex_holds_the_clues qs :
  valid_questions qs →
  ∀ key e,
    buildBoardIndex qs !! key = Some e ↔
    ∃ (i : nat) cat clue,
      categories qs !! i = Some cat ∧ clue ∈ clues cat ∧
      key = clueKey (Z.of_nat i) (value clue) ∧
      e = {| ci := Z.of_nat i; the_clue := clue; categoryTitle := title cat |}.
Proof.
  intros Hvalid key e. split; [apply buildBoardIndex_lookup|].
  intros (i & cat & clue & Hcat & Hclue & -> & ->). by apply buildBoardIndex_finds.
Qed.

Lemma buildBoardIndex_holds_the_clues_witness :
  buildBoardIndex sample_questions !! "c2_v300" =
    Some {| ci := 2; the_clue := {| value := 300; question := "Q"; answer := "A" |};
            categoryTitle := "C" |}.
Proof.
  apply (buildBoardIndex_holds_the_clues sample_questions sample_questions_valid).
  exists 2%nat, (sample_category "C"), {| value := 300; question := "Q"; answer := "A" |}.
  repeat split. apply list_elem_of_here.
Defined.

Lemma tile_keys_spec key :
  key ∈ tile_keys ↔ ∃ i : nat, (i < 5)%nat ∧ ∃ v, v ∈ VALUES ∧ key = clueKey (Z.of_nat i) v.
Proof.
  unfold tile_keys. rewrite list_elem_of_bind. split.
  - intros (v & (ci & Hkey & Hci)%list_elem_of_bind & Hv).
    apply list_elem_of_singleton in Hkey as ->.
    rewrite !elem_of_cons, elem_of_nil in Hci.
    destruct Hci as [->|[->|[->|[->|[->|[]]]]]];
      [exists 0%nat|exists 1%nat|exists 2%nat|exists 3%nat|exists 4%nat];
      (split; [lia|by exists v]).
  - intros (i & Hi & v & Hv & ->). exists v. split; [|done].
    apply list_elem_of_bind. exists (Z.of_nat i). split; [by apply list_elem_of_singleton|].
    rewrite !elem_of_cons.
    assert (i = 0 ∨ i = 1 ∨ i = 2 ∨ i = 3 ∨ i = 4)%nat as [->|[->|[->|[->| ->]]]] by lia;
      auto 10.
Qed.

Lemma dom_makeInitialBoardState :
  base.dom makeInitialBoardState =@{gset string} list_to_set tile_keys.
Proof. apply (bool_decide_unpack _). vm_compute. exact I. Qed.

Lemma dom_buildBoardIndex qs :
  valid_questions qs →
  base.dom (buildBoardIndex qs) =@{gset string} list_to_set tile_keys.
Proof.
  intros Hvalid. apply set_eq. intros key.
  rewrite elem_of_dom, elem_of_list_to_set. split.
  - intros [e (i & cat & clue & Hcat & Hclue & -> & _)%buildBoardIndex_lookup].
    destruct (valid_category_at qs i cat Hvalid Hcat) as (Hi & _ & _ & Hvalues & _).
    apply tile_keys_spec. exists i. split; [done|]. exists (value clue). split; [|done].
    rewrite <-Hvalues. by apply list_elem_of_fmap_2.
  - by apply tiles_are_indexed.
Qed.

(** X3.  For a bank that passed [loadQuestions] the keys of the board index,
    the keys of the initial [boardUsed] object and the keys of the tiles
    [renderBoard] draws are the same 25 keys, no tile key being drawn
    twice. *)
Theorem board_keys_agree qs :
  valid_questions qs →
  base.dom (buildBoardIndex qs) =@{gset string} list_to_set tile_keys ∧
  base.dom makeInitialBoardState =@{gset string} list_to_set tile_keys ∧
  size (buildBoardIndex qs) = 25%nat ∧ NoDup tile_keys.
Proof.
  intros Hvalid. split; [by apply dom_buildBoardIndex|].
  split; [apply dom_makeInitialBoardState|]. split.
  - rewrite <-(size_dom (D:=gset string)), dom_buildBoardIndex by done.
    rewrite <-dom_makeInitialBoardState, size_dom. apply makeInitialBoardState_size.
  - apply (bool_decide_unpack _). vm_compute. exact I.
Qed.

Lemma board_keys_agree_witness :
  base.dom (buildBoardIndex sample_questions) =@{gset string} list_to_set tile_keys ∧
  base.dom makeInitialBoardState =@{gset string} list_to_set tile_keys ∧
  size (buildBoardIndex sample_questions) = 25%nat ∧ NoDup tile_keys.
Proof. apply (board_keys_agree sample_questions), sample_questions_valid. Defined.

(** ** Creating a room, opening and closing clues *)

(** X4.  After [createRoomAsHost] on a fetched valid bank the client is the
    host of the room: [appState] holds mode [host], the code, the
    reference and the index of the bank, the 25 tiles are drawn, one
    listener is registered on the room, and the host's snapshot is the
    document just written. *)
Theorem createRoomAsHost_subscribes_host w :
  res_ok (questions_json w) = true → valid_questions (res_json (questions_json w)) →
  completion createRoomAsHost w = Normal () ∧
  mode (app (exec createRoomAsHost w)) = Some host ∧
  roomCode (app (exec createRoomAsHost w)) = Some ("JEP-" +:+ pretty (random_n w)) ∧
  roomRef (app (exec createRoomAsHost w))
    = Some (roomPath ("JEP-" +:+ pretty (random_n w))) ∧
  unsub (app (exec createRoomAsHost w)) = [roomPath ("JEP-" +:+ pretty (random_n w))] ∧
  roomData (app (exec createRoomAsHost w))
    = db (exec createRoomAsHost w) !! roomPath ("JEP-" +:+ pretty (random_n w)) ∧
  roomData (app (exec createRoomAsHost w)) = Some (resolve_room (server_now w) initial) ∧
  boardIndex (app (exec createRoomAsHost w))
    = Some (buildBoardIndex (res_json (questions_json w))) ∧
  board_tiles (dom (exec createRoomAsHost w)) = tile_keys.
Proof.
  intros Hok Hvalid.
  destruct (createRoomAsHost_run w Hok Hvalid)
    as (w' & Hrun & Hdb & _ & Hmode & Hcode & _ & Hindex & Href & Hunsub & Hroom & Htiles).
  unfold completion, exec. rewrite Hrun. simpl.
  repeat split; try done. by rewrite Hdb, lookup_insert_eq.
Qed.

Lemma createRoomAsHost_subscribes_host_witness :
  roomRef (app (exec createRoomAsHost fresh_page)) = Some sample_room ∧
  unsub (app (exec createRoomAsHost fresh_page)) = [sample_room] ∧
  roomData (app (exec createRoomAsHost fresh_page))
    = Some (resolve_room 1000 initial).
Proof.
  destruct (createRoomAsHost_subscribes_host fresh_page)
    as (_ & _ & _ & Href & Hunsub & _ & Hroom & _).
  - reflexivity.
  - apply sample_questions_valid.
  - by rewrite Href, Hunsub, Hroom.
Defined.

Lemma onHostTileClick_run w clueKey room index clue ref :
  roomData (app w) = Some room → phase room = Board →
  truthy_flag (boardUsed room !! clueKey) = false →
  boardIndex (app w) = Some index → index !! clueKey = Some clue →
  roomRef (app w) = Some ref →
  ∃ w', onHostTileClick clueKey w = (Normal (), w') ∧
    db w' = alter (apply_patch (server_now w)
              [ phase_to Question; activeClueKey_to (Some clueKey);
                buzz_firstBuzzTeam_to None; buzz_firstBuzzAt_to None;
                timer_endAtMs_to
                  (Some (date_now w + serverOffsetMs w
                         + nullish (durationSec (timer room)) 20 * 1000)) ])
              ref (db w) ∧
    store_log w' =
      call_update ref
        [ phase_to Question; activeClueKey_to (Some clueKey);
          buzz_firstBuzzTeam_to None; buzz_firstBuzzAt_to None;
          timer_endAtMs_to
            (Some (date_now w + serverOffsetMs w
                   + nullish (durationSec (timer room)) 20 * 1000)) ]
        :: store_log w.
Proof.
  intros Hroom Hphase Hused Hindex Hclue Href.
  unfold onHostTileClick, fn. run_simpl.
  rewrite Hroom. run_simpl. rewrite Hused, Hphase, Hindex. run_simpl.
  rewrite Hclue. run_simpl. rewrite Href. run_simpl.
  unfold ref_update. run_notify w1 F.
  rewrite openClueModal_noop. exists w1. split; [done|].
  destruct F. simpl in *. by split.
Qed.

(** X5.  On a room that was just created every tile opens its clue: whatever
    the clocks and the database have become, a click on any of the 25
    tiles issues the one [update] that sets phase [question], the tile's
    key as active clue, both buzz fields to null and the deadline 20
    seconds from the synchronized now. *)
Theorem fresh_room_every_tile_opens w key w1 :
  res_ok (questions_json w) = true → valid_questions (res_json (questions_json w)) →
  key ∈ tile_keys →
  app w1 = app (exec createRoomAsHost w) → dom w1 = dom (exec createRoomAsHost w) →
  store_log (exec (dispatch (tile_click key)) w1) =
    call_update (roomPath ("JEP-" +:+ pretty (random_n w)))
      [ phase_to Question; activeClueKey_to (Some key);
        buzz_firstBuzzTeam_to None; buzz_firstBuzzAt_to None;
        timer_endAtMs_to (Some (date_now w1 + serverOffsetMs w1 + 20 * 1000)) ]
      :: store_log w1 ∧
  db (exec (dispatch (tile_click key)) w1) =
    alter (apply_patch (server_now w1)
             [ phase_to Question; activeClueKey_to (Some key);
               buzz_firstBuzzTeam_to None; buzz_firstBuzzAt_to None;
               timer_endAtMs_to (Some (date_now w1 + serverOffsetMs w1 + 20 * 1000)) ])
          (roomPath ("JEP-" +:+ pretty (random_n w))) (db w1).
Proof.
  intros Hok Hvalid Hkey Happ Hdom.
  destruct (createRoomAsHost_run w Hok Hvalid)
    as (w' & Hrun & _ & _ & _ & _ & _ & Hindex & Href & _ & Hroom & Htiles).
  unfold exec in Happ, Hdom. rewrite Hrun in Happ, Hdom. simpl in Happ, Hdom.
  destruct (tiles_are_indexed _ key Hvalid Hkey) as [clue Hclue].
  unfold dispatch. rewrite exec_bind. simpl.
  rewrite Hdom, Htiles, bool_decide_eq_true_2 by done.
  destruct (onHostTileClick_run w1 key (resolve_room (server_now w) initial)
              (buildBoardIndex (res_json (questions_json w))) clue
              (roomPath ("JEP-" +:+ pretty (random_n w))))
    as (w2 & Hclick & Hdb & Hlog); try (by rewrite ?Happ).
  { assert (is_Some (makeInitialBoardState !! key)) as [b Hb].
    { apply (elem_of_dom (D:=gset string)). rewrite dom_makeInitialBoardState.
      by apply elem_of_list_to_set. }
    change (truthy_flag (makeInitialBoardState !! key) = false).
    rewrite Hb. simpl. by apply (makeInitialBoardState_false key). }
  unfold exec. rewrite Hclick. simpl. by rewrite Hdb, Hlog.
Qed.

Lemma fresh_room_every_tile_opens_witness :
  store_log (exec (dispatch (tile_click "c2_v300")) host_before_open) =
    call_update sample_room
      [ phase_to Question; activeClueKey_to (Some "c2_v300");
        buzz_firstBuzzTeam_to None; buzz_firstBuzzAt_to None;
        timer_endAtMs_to (Some 24000) ]
      :: store_log host_before_open.
Proof.
  destruct (fresh_room_every_tile_opens fresh_page "c2_v300" host_before_open)
    as [Hlog _].
  - reflexivity.
  - apply sample_questions_valid.
  - apply (bool_decide_unpack _). vm_compute. exact I.
  - vm_compute. reflexivity.
  - vm_compute. reflexivity.
  - rewrite Hlog. vm_compute. reflexivity.
Defined.

(** A partial update and its echo: the caller's snapshot is the updated
    document when the caller listens to the path. *)
Lemma ref_update_echo path patch w :
  ∃ w', ref_update path patch w = (Normal (), w') ∧
    session_frame (with_db (alter (apply_patch (server_now w) patch) path)
                     (log_call (call_update path patch) w)) w' ∧
    unsub (app w') = unsub (app w) ∧
    roomData (app w') =
      if bool_decide (path ∈ unsub (app w))
      then apply_patch (server_now w) patch <$> db w !! path
      else roomData (app w).
Proof.
  unfold ref_update. run_notify w1 F. exists w1. split; [done|]. split; [done|].
  split; [done|]. rewrite HroomData. case_bool_decide; [|done].
  apply lookup_alter_eq.
Qed.

(** X6.  One clue at a time: once a tile click of a host that listens to its
    room has issued its update, the host's snapshot is the updated
    document, and a further tile click -- on any tile -- does nothing. *)
Theorem one_clue_at_a_time w key1 key2 room index clue ref :
  roomData (app w) = Some room → phase room = Board →
  truthy_flag (boardUsed room !! key1) = false →
  boardIndex (app w) = Some index → index !! key1 = Some clue →
  roomRef (app w) = Some ref → ref ∈ unsub (app w) →
  store_log (exec (onHostTileClick key1) w) ≠ store_log w ∧
  onHostTileClick key2 (exec (onHostTileClick key1) w)
    = (Normal (), exec (onHostTileClick key1) w).
Proof.
  intros Hroom Hphase Hused Hindex Hclue Href Hsub.
  unfold exec. unfold onHostTileClick at 1 3 4, fn. run_simpl.
  rewrite Hroom. run_simpl. rewrite Hused, Hphase, Hindex. run_simpl.
  rewrite Hclue. run_simpl. rewrite Href. run_simpl.
  match goal with |- context [ref_update ref ?patch] =>
    destruct (ref_update_echo ref patch w) as (w1 & -> & F & Hu & Hr) end.
  rewrite openClueModal_noop. simpl.
  rewrite bool_decide_eq_true_2 in Hr by done. split.
  - rewrite (sf_store_log _ _ F). simpl. intros Heq.
    apply (f_equal length) in Heq. simpl in Heq. lia.
  - unfold onHostTileClick, fn. run_simpl. rewrite Hr.
    destruct (db w !! ref) as [d|]; simpl; [|done]. run_simpl.
    destruct (truthy_flag (boardUsed d !! key2)); [done|]. by run_simpl.
Qed.

Lemma one_clue_at_a_time_witness :
  onHostTileClick "c0_v100" (exec (onHostTileClick "c2_v300") host_before_open)
    = (Normal (), exec (onHostTileClick "c2_v300") host_before_open).
Proof.
  apply (one_clue_at_a_time host_before_open "c2_v300" "c0_v100"
           (default initial (roomData (app host_before_open)))
           (default ∅ (boardIndex (app host_before_open)))
           {| ci := 2; the_clue := {| value := 300; question := "Q"; answer := "A" |};
              categoryTitle := "C" |}
           sample_room).
  - apply Some_default. by_evaluation.
  - vm_compute. reflexivity.
  - vm_compute. reflexivity.
  - apply Some_default. by_evaluation.
  - vm_compute. reflexivity.
  - vm_compute. reflexivity.
  - apply (bool_decide_unpack _). vm_compute. exact I.
Defined.

(** X7.  A clue that was played cannot be opened again: after
    [returnToBoardAndMarkUsed] by a host that listens to its room, a click
    on the tile of the clue just closed does nothing. *)
Theorem played_clue_cannot_be_reopened w room key ref :
  mode (app w) = Some host → roomData (app w) = Some room →
  activeClueKey room = Some key → key ≠ "" →
  roomRef (app w) = Some ref → ref ∈ unsub (app w) →
  store_log (exec returnToBoardAndMarkUsed w) ≠ store_log w ∧
  onHostTileClick key (exec returnToBoardAndMarkUsed w)
    = (Normal (), exec returnToBoardAndMarkUsed w).
Proof.
  intros Hmode Hroom Hkey Hne%truthy_string_spec Href Hsub.
  unfold exec. unfold returnToBoardAndMarkUsed, fn. run_simpl.
  rewrite Hmode, Hroom. run_simpl. rewrite Hkey. simpl. rewrite Hne. run_simpl.
  rewrite Href. run_simpl.
  match goal with |- context [ref_update ref ?patch] =>
    destruct (ref_update_echo ref patch w) as (w1 & -> & F & Hu & Hr) end.
  unfold closeClueModal. run_simpl.
  rewrite bool_decide_eq_true_2 in Hr by done. split.
  - rewrite (sf_store_log _ _ F). simpl. intros Heq.
    apply (f_equal length) in Heq. simpl in Heq. lia.
  - unfold onHostTileClick, fn. run_simpl. rewrite Hr.
    destruct (db w !! ref) as [d|]; simpl; [|done]. run_simpl.
    by rewrite lookup_insert_eq.
Qed.

Lemma played_clue_cannot_be_reopened_witness :
  onHostTileClick "c2_v300" (exec returnToBoardAndMarkUsed host_in_question)
    = (Normal (), exec returnToBoardAndMarkUsed host_in_question).
Proof.
  apply (played_clue_cannot_be_reopened host_in_question
           (default initial (roomData (app host_in_question))) "c2_v300" sample_room).
  - vm_compute. reflexivity.
  - apply Some_default. by_evaluation.
  - vm_compute. reflexivity.
  - vm_compute. discriminate.
  - vm_compute. reflexivity.
  - apply (bool_decide_unpack _). vm_compute. exact I.
Defined.

(** X8.  [createRoomAsHost] does not look at what is stored under the code it
    draws: the document at the room's path is the initial one afterwards,
    and nobody is registered in it, even when a game was stored there.
    Two draws give the same path exactly when they are the same number. *)
Theorem createRoomAsHost_resets_room_in_use w :
  res_ok (questions_json w) = true → valid_questions (res_json (questions_json w)) →
  db (exec createRoomAsHost w) !! roomPath ("JEP-" +:+ pretty (random_n w))
    = Some (resolve_room (server_now w) initial) ∧
  (∀ id, ¬ registered_at (roomPath ("JEP-" +:+ pretty (random_n w))) id
             (db (exec createRoomAsHost w))) ∧
  (∀ n m : Z, roomPath ("JEP-" +:+ pretty n) = roomPath ("JEP-" +:+ pretty m) ↔ n = m).
Proof.
  intros Hok Hvalid.
  destruct (createRoomAsHost_run w Hok Hvalid) as (w' & Hrun & Hdb & _).
  unfold exec. rewrite Hrun. simpl. rewrite Hdb, lookup_insert_eq.
  split; [done|]. split.
  - intros id (d & Hd & [p Hp]). rewrite lookup_insert_eq in Hd.
    injection Hd as <-. simpl in Hp. by rewrite lookup_empty in Hp.
  - intros n m. split; [|by intros ->]. intros [= Heq]. by apply (inj pretty).
Qed.

Lemma createRoomAsHost_resets_room_in_use_witness :
  db (exec createRoomAsHost ann_in_question) !! sample_room
    = Some (resolve_room 5000 initial).
Proof.
  destruct (createRoomAsHost_resets_room_in_use ann_in_question) as [H _].
  - reflexivity.
  - apply sample_questions_valid.
  - exact H.
Defined.

(** ** Joining, leaving, ending a room *)

Lemma leaveToLanding_run w :
  leaveToLanding w =
  (Normal (),
   with_dom (λ d, set_clueInner_flipped false (set_clueModal_hidden true d))
     (with_app (λ _, initial_appState) w)).
Proof. reflexivity. Qed.

Lemma endRoom_run w ref :
  roomRef (app w) = Some ref →
  ∃ w', endRoom w = (Normal (), w') ∧
        db w' = delete ref (db w) ∧
        store_log w' = call_remove ref :: store_log w ∧
        app w' = initial_appState.
Proof.
  intros Href. unfold endRoom, fn. rewrite run_bind. simpl. rewrite Href. simpl.
  unfold ref_remove. run_notify w1 F. rewrite leaveToLanding_run.
  eexists. split; [done|]. destruct F. simpl. by repeat split.
Qed.

Lemma joinRoomAsPlayer_unknown code team name w :
  db w !! roomPath code = None →
  joinRoomAsPlayer code team name w
  = (Throw "Room not found. Check the code.", log_call (call_get (roomPath code)) w).
Proof.
  intros Hnone. unfold joinRoomAsPlayer, fn, ref_get. rewrite run_bind. simpl.
  by rewrite Hnone.
Qed.

Lemma joinRoomAsPlayer_run code team name w d :
  db w !! roomPath code = Some d →
  ∃ w', joinRoomAsPlayer code team name w = (Normal (), w') ∧
    db w' = <[roomPath code :=
                set_players
                  (<[device_id w :=
                       {| player_name := if truthy_string name then name else "Player";
                          player_team := team;
                          joinedAt := Millis (server_now w) |}]> (players d)) d]> (db w) ∧
    store_log w' = call_set (roomPath code +:+ "/players/" +:+ device_id w)
                     :: call_get (roomPath code) :: store_log w ∧
    mode (app w') = Some player ∧ roomCode (app w') = Some code ∧
    teamId (app w') = team ∧
    playerName (app w') = Some (if truthy_string name then name else "Player") ∧
    roomRef (app w') = Some (roomPath code) ∧ unsub (app w') = [roomPath code] ∧
    roomData (app w') = db w' !! roomPath code.
Proof.
  intros Hd. unfold joinRoomAsPlayer, fn, ref_get. rewrite run_bind. simpl.
  rewrite Hd. simpl. unfold player_set. run_notify w1 F1.
  destruct (subscribeToRoom_run w1 (roomPath code)) as (w2 & -> & F2 & Hu2 & Hr2).
  { by rewrite (sf_roomRef _ _ F1). }
  exists w2. split; [done|].
  pose proof (session_frame_trans _ _ _ F1 F2)
    as [Hdb Hlog _ _ _ _ _ _ Hmode Hcode Hteam Hname _ _ Href _ _].
  simpl in *. repeat split; try congruence.
  - rewrite Hdb. apply map_eq. intros p. rewrite lookup_alter, lookup_insert.
    case_decide; simplify_eq; by rewrite ?Hd.
  - rewrite Hr2. by rewrite (sf_db _ _ F2), (sf_db _ _ F1).
Qed.

(** X9.  Joining a room that does not exist: [joinRoomAsPlayer] throws [Room
    not found. Check the code.] after its one read, writes nothing and
    leaves [appState] as it was; the listener of the join button catches
    the error. *)
Theorem joinRoomAsPlayer_refuses_unknown_room code team name w :
  db w !! roomPath code = None →
  completion (joinRoomAsPlayer code team name) w
    = Throw "Room not found. Check the code." ∧
  db (exec (joinRoomAsPlayer code team name) w) = db w ∧
  store_log (exec (joinRoomAsPlayer code team name) w)
    = call_get (roomPath code) :: store_log w ∧
  app (exec (joinRoomAsPlayer code team name) w) = app w ∧
  dispatch (btnJoinRoom_click code team name) w
    = (Normal (), log_call (call_get (roomPath code)) w).
Proof.
  intros Hnone. unfold completion, exec, dispatch, try_catch.
  by rewrite (joinRoomAsPlayer_unknown code team name w Hnone).
Qed.

Lemma joinRoomAsPlayer_refuses_unknown_room_witness :
  dispatch (btnJoinRoom_click "JEP-0000" (Some team1) "Ann") fresh_page
    = (Normal (), log_call (call_get (roomPath "JEP-0000")) fresh_page).
Proof.
  apply (joinRoomAsPlayer_refuses_unknown_room "JEP-0000" (Some team1) "Ann" fresh_page).
  vm_compute. reflexivity.
Defined.

(** X10.  Joining a room that exists: the one write registers the player under
    the device's identifier, with the name given ([Player] when it is
    empty), the team and the server's time, every other part of the room
    document and every other room staying as they are; the client is then
    a player of the room with one listener on it, and its snapshot is the
    stored document. *)
Theorem joinRoomAsPlayer_registers_player code team name w d :
  db w !! roomPath code = Some d →
  completion (joinRoomAsPlayer code team name) w = Normal () ∧
  db (exec (joinRoomAsPlayer code team name) w) =
    <[roomPath code :=
        set_players
          (<[device_id w :=
               {| player_name := if truthy_string name then name else "Player";
                  player_team := team;
                  joinedAt := Millis (server_now w) |}]> (players d)) d]> (db w) ∧
  store_log (exec (joinRoomAsPlayer code team name) w) =
    call_set (roomPath code +:+ "/players/" +:+ device_id w)
      :: call_get (roomPath code) :: store_log w ∧
  mode (app (exec (joinRoomAsPlayer code team name) w)) = Some player ∧
  teamId (app (exec (joinRoomAsPlayer code team name) w)) = team ∧
  roomRef (app (exec (joinRoomAsPlayer code team name) w)) = Some (roomPath code) ∧
  unsub (app (exec (joinRoomAsPlayer code team name) w)) = [roomPath code] ∧
  roomData (app (exec (joinRoomAsPlayer code team name) w)) =
    db (exec (joinRoomAsPlayer code team name) w) !! roomPath code.
Proof.
  intros Hd.
  destruct (joinRoomAsPlayer_run code team name w d Hd)
    as (w' & Hrun & Hdb & Hlog & Hmode & _ & Hteam & _ & Href & Hunsub & Hroom).
  unfold completion, exec. rewrite Hrun. simpl. by rewrite <-Hdb.
Qed.

Lemma joinRoomAsPlayer_registers_player_witness :
  mode (app (exec (joinRoomAsPlayer "JEP-1234" (Some team2) "") host_before_open))
    = Some player ∧
  store_log (exec (joinRoomAsPlayer "JEP-1234" (Some team2) "") host_before_open) =
    call_set "rooms/JEP-1234/players/host-device"
      :: call_get "rooms/JEP-1234" :: store_log host_before_open.
Proof.
  destruct (joinRoomAsPlayer_registers_player "JEP-1234" (Some team2) "" host_before_open
              (default initial (db host_before_open !! roomPath "JEP-1234")))
    as (_ & _ & Hlog & Hmode & _).
  - apply Some_default. by_evaluation.
  - split; [exact Hmode|]. rewrite Hlog. vm_compute. reflexivity.
Defined.

Lemma dispatch_keeps_registered e path id :
  e ≠ btnCreateRoom_click → e ≠ btnHostEndRoom_click →
  keeps (on_db (registered_at path id)) (dispatch e).
Proof.
  intros Hcreate Hend.
  destruct e; try done; unfold dispatch; repeat keeps_step.
  all: unfold on_db, registered_at; intros; simpl; try done.
  all: match goal with H : ∃ d, _ |- _ => destruct H as (d0 & Hd0 & Hid) end.
  all: rewrite lookup_alter; case_decide; simplify_eq; rewrite Hd0; simpl;
       eexists; (split; [done|]); simpl; try done.
  apply lookup_insert_is_Some'. auto.
Qed.

(** X11.  A registration is never removed while the room lives: over any steps
    of the system that neither create nor end a room -- the player leaving
    included -- a device registered in a room stays registered in it. *)
Theorem players_stay_registered s ls path id :
  Forall (λ l, creates_or_ends l = false) ls →
  registered_at path id (s_db s) →
  registered_at path id (s_db (run_from s ls)).
Proof.
  intros Hls. revert s. induction Hls as [|l ls Hl _ IH]; intros s Hs; [done|].
  apply IH. destruct l as [hidden disabled device|i env e]; simpl; [done|].
  destruct (s_clients s !! i) as [c|]; [|done]. simpl.
  apply (dispatch_keeps_registered e path id); [by intros ->..|done].
Qed.

Lemma players_stay_registered_witness :
  registered_at sample_room "ann-device"
    (s_db (run_from (run_from initial_system clue_opened) ann_leaves)).
Proof.
  apply (players_stay_registered (run_from initial_system clue_opened) ann_leaves
           sample_room "ann-device").
  - repeat constructor.
  - exists (doc_at sample_room (run_from initial_system clue_opened)).
    split; [apply Some_default; by_evaluation|by_evaluation].
Defined.

Lemma idle_client_run e w :
  enters_room e = false → app w = initial_appState →
  ∃ w', dispatch e w = (Normal (), w') ∧ db w' = db w ∧ store_log w' = store_log w ∧
        app w' = initial_appState.
Proof.
  intros He Happ. destruct w as [rooms log a dm t1 t2 t3 q r dev]. simpl in Happ. subst a.
  destruct e; try done; unfold dispatch.
  all: try (eexists; split; [reflexivity|done]).
  - destruct (bool_decide (key ∈ board_tiles dm)) eqn:Hkey.
    + run_simpl. rewrite Hkey. by eexists.
    + run_simpl. rewrite Hkey. by eexists.
  - run_simpl. destruct (clueCard_onclick dm); by eexists.
  - run_simpl. destruct (btnBuzz_disabled dm); by eexists.
Qed.

(** X12.  After the leave button the client is in no room: [appState] is as on
    a freshly loaded page and no database call was made; and until it
    creates or joins a room, no event it handles (any button, a snapshot
    delivery, a timer tick) calls the database or changes [appState]. *)
Theorem leaving_client_is_inert w e :
  enters_room e = false →
  app (exec (dispatch btnLeaveRoom_click) w) = initial_appState ∧
  db (exec (dispatch btnLeaveRoom_click) w) = db w ∧
  store_log (exec (dispatch btnLeaveRoom_click) w) = store_log w ∧
  completion (dispatch e) (exec (dispatch btnLeaveRoom_click) w) = Normal () ∧
  db (exec (dispatch e) (exec (dispatch btnLeaveRoom_click) w)) = db w ∧
  store_log (exec (dispatch e) (exec (dispatch btnLeaveRoom_click) w)) = store_log w ∧
  app (exec (dispatch e) (exec (dispatch btnLeaveRoom_click) w)) = initial_appState.
Proof.
  intros He.
  assert (app (exec (dispatch btnLeaveRoom_click) w) = initial_appState ∧
          db (exec (dispatch btnLeaveRoom_click) w) = db w ∧
          store_log (exec (dispatch btnLeaveRoom_click) w) = store_log w)
    as (Happ & Hdb & Hlog) by done.
  generalize dependent (exec (dispatch btnLeaveRoom_click) w). intros w0 Happ Hdb Hlog.
  destruct (idle_client_run e w0 He Happ) as (w' & Hrun & Hdb' & Hlog' & Happ').
  unfold completion, exec. rewrite Hrun. simpl.
  repeat split; congruence.
Qed.

Lemma leaving_client_is_inert_witness :
  store_log (exec (dispatch btnBuzz_click)
               (exec (dispatch btnLeaveRoom_click) ann_in_question))
    = store_log ann_in_question.
Proof.
  apply (leaving_client_is_inert ann_in_question btnBuzz_click). reflexivity.
Defined.

(** X13.  [endRoom] by a client with a room reference removes the document of
    that room and only it, and resets [appState]; a join with the code of
    the room is refused as long as the database is as [endRoom] left it. *)
Theorem endRoom_removes_the_room w code :
  roomRef (app w) = Some (roomPath code) →
  completion endRoom w = Normal () ∧
  db (exec endRoom w) = delete (roomPath code) (db w) ∧
  store_log (exec endRoom w) = call_remove (roomPath code) :: store_log w ∧
  app (exec endRoom w) = initial_appState ∧
  ∀ w1 team name,
    db w1 = db (exec endRoom w) →
    completion (joinRoomAsPlayer code team name) w1
      = Throw "Room not found. Check the code." ∧
    db (exec (joinRoomAsPlayer code team name) w1) = db w1.
Proof.
  intros Href. destruct (endRoom_run w _ Href) as (w' & Hrun & Hdb & Hlog & Happ).
  unfold completion, exec. rewrite Hrun. simpl. repeat split; try done.
  all: rewrite joinRoomAsPlayer_unknown; [done|].
  all: by rewrite H, Hdb, lookup_delete_eq.
Qed.

Lemma endRoom_removes_the_room_witness :
  db (exec endRoom host_in_question) = delete (roomPath "JEP-1234") (db host_in_question) ∧
  app (exec endRoom host_in_question) = initial_appState.
Proof.
  destruct (endRoom_removes_the_room host_in_question "JEP-1234")
    as (_ & Hdb & _ & Happ & _); [vm_compute; reflexivity|]. by split.
Defined.

(** ** The host's controls *)

Lemma resetTimer_run w room ref :
  mode (app w) = Some host → roomData (app w) = Some room →
  roomRef (app w) = Some ref →
  ∃ w', resetTimer w = (Normal (), w') ∧
    db w' = alter (apply_patch (server_now w)
                     [timer_endAtMs_to
                        (if bool_decide (phase room = Question)
                         then Some (date_now w + serverOffsetMs w
                                    + nullish (durationSec (timer room)) 20 * 1000)
                         else None)]) ref (db w) ∧
    store_log w' =
      call_update ref
        [timer_endAtMs_to
           (if bool_decide (phase room = Question)
            then Some (date_now w + serverOffsetMs w
                       + nullish (durationSec (timer room)) 20 * 1000)
            else None)] :: store_log w.
Proof.
  intros Hmode Hroom Href. unfold resetTimer, fn. rewrite run_bind. simpl.
  rewrite Hmode, Hroom, Href. repeat (rewrite run_bind; simpl).
  case_bool_decide; simpl; unfold ref_update; run_notify w1 F;
    destruct F; simpl in *; by eexists.
Qed.

(** X14.  [resetTimer] by a host with a room reference: with a snapshot in
    phase [question] the one update sets the deadline to the synchronized
    now plus the snapshot's duration (20 seconds when absent), with a
    snapshot in another phase it sets the deadline to null, and nothing
    else of the document changes; without a snapshot the call throws and
    nothing is written. *)
Theorem resetTimer_restarts_or_clears w ref :
  mode (app w) = Some host → roomRef (app w) = Some ref →
  match roomData (app w) with
  | Some room =>
      completion resetTimer w = Normal () ∧
      db (exec resetTimer w) =
        alter (λ d,
          set_timer
            {| durationSec := durationSec (timer d);
               endAtMs :=
                 if bool_decide (phase room = Question)
                 then Some (date_now w + serverOffsetMs w
                            + nullish (durationSec (timer room)) 20 * 1000)
                 else None |} d) ref (db w) ∧
      store_log (exec resetTimer w) =
        call_update ref
          [timer_endAtMs_to
             (if bool_decide (phase room = Question)
              then Some (date_now w + serverOffsetMs w
                         + nullish (durationSec (timer room)) 20 * 1000)
              else None)] :: store_log w
  | None => ∃ e, resetTimer w = (Throw e, w)
  end.
Proof.
  intros Hmode Href. destruct (roomData (app w)) as [room|] eqn:Hroom.
  - destruct (resetTimer_run w room ref Hmode Hroom Href) as (w' & Hrun & Hdb & Hlog).
    unfold completion, exec. rewrite Hrun. simpl. by rewrite Hdb, Hlog.
  - unfold resetTimer, fn. rewrite run_bind. simpl. rewrite Hmode, Hroom. simpl.
    by eexists.
Qed.

Lemma resetTimer_restarts_or_clears_witness :
  store_log (exec resetTimer host_in_question) =
    call_update sample_room [timer_endAtMs_to (Some 28000)]
      :: store_log host_in_question.
Proof.
  pose proof (resetTimer_restarts_or_clears host_in_question sample_room) as H.
  replace (roomData (app host_in_question))
    with (Some (default initial (roomData (app host_in_question)))) in H
    by (symmetry; apply Some_default; by_evaluation).
  destruct H as (_ & _ & H); [vm_compute; reflexivity..|].
  rewrite H. vm_compute. reflexivity.
Defined.

(** X15.  The host's controls do nothing on a client that is not in host
    mode: a click on the clue card, return to board, reset buzz, reset timer,
    award and penalty leave the whole world as it is, no database call being
    made. *)
Theorem host_controls_ignore_other_modes w e :
  mode (app w) ≠ Some host → host_control e = true →
  dispatch e w = (Normal (), w).
Proof.
  intros Hmode He. destruct e; try done; unfold dispatch.
  - run_simpl. destruct (clueCard_onclick (dom w)); [|done].
    unfold clueCard_onclick_handler, fn. run_simpl.
    by rewrite bool_decide_eq_false_2.
  - unfold returnToBoardAndMarkUsed, fn. run_simpl. by rewrite bool_decide_eq_false_2.
  - unfold resetBuzz, fn. run_simpl. by rewrite bool_decide_eq_false_2.
  - unfold resetTimer, fn. run_simpl. by rewrite bool_decide_eq_false_2.
  - unfold activeClue_value, adjustScore, fn. run_simpl.
    by rewrite bool_decide_eq_false_2.
  - unfold activeClue_value, adjustScore, fn. run_simpl.
    by rewrite bool_decide_eq_false_2.
Qed.

Lemma host_controls_ignore_other_modes_witness :
  dispatch (btnAward_click team1) ann_in_question = (Normal (), ann_in_question).
Proof.
  apply (host_controls_ignore_other_modes ann_in_question (btnAward_click team1)).
  - vm_compute. discriminate.
  - reflexivity.
Defined.

Lemma or_zero_Some x : or_zero (Some x) = x.
Proof. unfold or_zero. simpl. destruct (Z.eqb_spec x 0); simpl; lia. Qed.

Lemma adjustScore_run w t delta ref :
  mode (app w) = Some host → roomRef (app w) = Some ref →
  ∃ w', adjustScore t delta w = (Normal (), w') ∧
    db w' = alter (λ d, set_teams
                     (set_score t (Some (or_zero (score (team_of t (teams d))) + delta))
                                (teams d)) d) ref (db w) ∧
    store_log w' = call_transaction
                     (ref +:+ "/teams/" +:+ teamId_string t +:+ "/score")
                     :: store_log w ∧
    mode (app w') = Some host ∧ roomRef (app w') = Some ref.
Proof.
  intros Hmode Href. unfold adjustScore, fn. rewrite run_bind. simpl.
  rewrite Hmode, Href. simpl. unfold score_transaction. run_notify w1 F.
  destruct F; simpl in *. eexists. split; [done|]. repeat split; congruence.
Qed.

(** X16.  Score adjustments by a host add up: two adjustments of a team's
    score have the effect of one adjustment by the sum, an adjustment
    followed by its opposite restores a score that was present, an absent
    score counts as 0, and neither the other team nor any other part of
    the document changes. *)
Theorem adjustScore_adjustments_add_up w t delta1 delta2 ref :
  mode (app w) = Some host → roomRef (app w) = Some ref →
  db (exec (adjustScore t delta2) (exec (adjustScore t delta1) w))
    = db (exec (adjustScore t (delta1 + delta2)) w) ∧
  (∀ d, db w !! ref = Some d → is_Some (score (team_of t (teams d))) →
        db (exec (adjustScore t (- delta1)) (exec (adjustScore t delta1) w)) = db w) ∧
  (∀ d, db w !! ref = Some d →
        ∃ d', db (exec (adjustScore t delta1) w) !! ref = Some d' ∧
              score (team_of t (teams d')) =
                Some (default 0 (score (team_of t (teams d))) + delta1) ∧
              set_teams (teams d) d' = d ∧
              ∀ t', t' ≠ t → team_of t' (teams d') = team_of t' (teams d)).
Proof.
  intros Hmode Href.
  assert (∀ a b, db (exec (adjustScore t b) (exec (adjustScore t a) w)) =
    alter (λ d, set_teams
             (set_score t (Some (or_zero (score (team_of t (teams d))) + (a + b)))
                        (teams d)) d) ref (db w)) as Htwice.
  { intros a b.
    destruct (adjustScore_run w t a ref Hmode Href) as (w1 & Hrun1 & Hdb1 & _ & Hm1 & Hr1).
    unfold exec at 2. rewrite Hrun1. simpl.
    destruct (adjustScore_run w1 t b ref Hm1 Hr1) as (w2 & Hrun2 & Hdb2 & _).
    unfold exec. rewrite Hrun2. simpl. rewrite Hdb2, Hdb1, alter_alter_eq.
    apply alter_ext. intros d _.
    destruct t; simpl; rewrite or_zero_Some; unfold set_teams; simpl;
      by rewrite Z.add_assoc. }
  destruct (adjustScore_run w t (delta1 + delta2) ref Hmode Href)
    as (w3 & Hrun3 & Hdb3 & _).
  split; [|split].
  - rewrite Htwice. unfold exec. by rewrite Hrun3.
  - intros d Hd [s Hs]. rewrite Htwice. apply map_eq. intros p.
    rewrite lookup_alter. case_decide; [|done]. subst p. rewrite Hd. simpl. f_equal.
    destruct d as [? ? ? [[n1 s1] [n2 s2]] ? ? ? ?], t; simpl in *;
      subst; rewrite or_zero_Some; unfold set_teams; simpl; do 4 f_equal; lia.
  - intros d Hd.
    destruct (adjustScore_run w t delta1 ref Hmode Href) as (w1 & Hrun1 & Hdb1 & _).
    unfold exec. rewrite Hrun1. simpl. rewrite Hdb1, lookup_alter_eq, Hd. simpl.
    eexists. split; [done|].
    assert (or_zero (score (team_of t (teams d)))
            = default 0 (score (team_of t (teams d)))) as ->.
    { destruct (score _) as [s|]; [apply or_zero_Some|done]. }
    destruct d as [? ? ? [[n1 s1] [n2 s2]] ? ? ? ?], t; simpl.
    all: repeat split; by intros [] ?.
Qed.

Lemma adjustScore_adjustments_add_up_witness :
  db (exec (adjustScore team1 (-300)) (exec (adjustScore team1 300) host_in_question))
    = db (exec (adjustScore team1 (300 + -300)) host_in_question).
Proof.
  destruct (adjustScore_adjustments_add_up host_in_question team1 300 (-300) sample_room)
    as [H _].
  - vm_compute. reflexivity.
  - vm_compute. reflexivity.
  - exact H.
Defined.

(** ** The buzz *)

(** X17.  A buzz that passes the checks of [playerBuzz] is decided by the
    stored document, not by the snapshot: when the stored document records
    no winner the client's team and the server's time are recorded and
    nothing else changes, and when it records one the database stays as it
    is. *)
Theorem playerBuzz_decided_by_store w room ref d :
  roomData (app w) = Some room → phase room = Question →
  truthy_num (endAtMs (timer room)) = true →
  date_now w + serverOffsetMs w < default 0 (endAtMs (timer room)) →
  roomRef (app w) = Some ref → db w !! ref = Some d →
  db (exec playerBuzz w) =
    if truthy_team (firstBuzzTeam (buzz d)) then db w
    else <[ref := set_buzz {| firstBuzzTeam := teamId (app w);
                              firstBuzzAt := Some (Millis (server_now w)) |} d]> (db w).
Proof.
  intros Hroom Hphase HendAt Hnow Href Hd.
  unfold playerBuzz. exec_simpl. rewrite Hroom. exec_simpl.
  rewrite bool_decide_eq_true_2 by done. simpl. exec_simpl.
  rewrite HendAt. simpl. rewrite bool_decide_eq_false_2 by lia. simpl.
  exec_simpl. rewrite Href. simpl.
  destruct (buzz_transaction_store ref (teamId (app w)) w) as [_ ->].
  by rewrite Hd.
Qed.

Lemma playerBuzz_decided_by_store_witness :
  firstBuzzTeam_at sample_room (db (exec playerBuzz ann_in_question)) = Some team1.
Proof.
  pose proof (playerBuzz_decided_by_store ann_in_question
    (default initial (roomData (app ann_in_question))) sample_room
    (default initial (db ann_in_question !! sample_room))) as H.
  rewrite H.
  - vm_compute. reflexivity.
  - apply Some_default. by_evaluation.
  - vm_compute. reflexivity.
  - vm_compute. reflexivity.
  - vm_compute. reflexivity.
  - vm_compute. reflexivity.
  - apply Some_default. by_evaluation.
Defined.

(** X18.  The two gates agree: whenever [updatePlayerBuzzButton] leaves the
    button of a player enabled, [playerBuzz] run at the same instant sends
    the transaction; the snapshot is then in phase [question], before its
    deadline and without a winner. *)
Theorem enabled_button_click_is_sent w room ref :
  mode (app w) = Some player → roomData (app w) = Some room →
  roomRef (app w) = Some ref →
  btnBuzz_disabled (dom (exec updatePlayerBuzzButton w)) = false →
  store_log (exec playerBuzz w) = call_transaction (ref +:+ "/buzz") :: store_log w ∧
  phase room = Question ∧ firstBuzzTeam (buzz room) = None ∧
  ∃ endAt, endAtMs (timer room) = Some endAt ∧ date_now w + serverOffsetMs w < endAt.
Proof.
  intros Hmode Hroom Href. unfold updatePlayerBuzzButton. exec_simpl.
  rewrite Hmode, Hroom. exec_simpl. rewrite negb_false_iff, !andb_true_iff.
  intros [[Hphase [HendAt Hnow]] Hwinner].
  rewrite playerBuzz_gate, Hroom, Href, Hphase, HendAt. simpl.
  apply bool_decide_eq_true in Hphase, Hnow.
  rewrite bool_decide_eq_true_2 by done.
  split; [done|]. split; [done|]. split.
  - by destruct (firstBuzzTeam (buzz room)).
  - destruct (endAtMs (timer room)) as [endAt|]; [|done]. by exists endAt.
Qed.

Lemma enabled_button_click_is_sent_witness :
  store_log (exec playerBuzz ann_in_question)
    = call_transaction (sample_room +:+ "/buzz") :: store_log ann_in_question.
Proof.
  apply (enabled_button_click_is_sent ann_in_question
           (default initial (roomData (app ann_in_question))) sample_room).
  - vm_compute. reflexivity.
  - apply Some_default. by_evaluation.
  - vm_compute. reflexivity.
  - vm_compute. reflexivity.
Defined.

Lemma length_append (s r : string) :
  String.length (s +:+ r) = (String.length s + String.length r)%nat.
Proof. induction s as [|a s IH]; simpl; [done|]. by rewrite IH. Qed.

Lemma buzzed_first_is_not_open t : t +:+ " buzzed first." ≠ "Buzz is open!".
Proof.
  intros Heq. apply (f_equal String.length) in Heq.
  rewrite length_append in Heq. simpl in Heq. lia.
Qed.

(** X19.  The text under the buzz button agrees with the button: a player
    reads [Buzz is open!] exactly when [updatePlayerBuzzButton] enables
    the button; when the button is disabled and a winner is recorded the
    text is one of the two waiting messages or names the winning team, by
    its stored name or by [Team 1] / [Team 2] when the name is empty. *)
Theorem pBuzzText_agrees_with_button w room :
  mode (app w) = Some player → roomData (app w) = Some room →
  (completion pBuzzText w = Normal "Buzz is open!"
   ↔ btnBuzz_disabled (dom (exec updatePlayerBuzzButton w)) = false) ∧
  (btnBuzz_disabled (dom (exec updatePlayerBuzzButton w)) = true →
   ∀ t, firstBuzzTeam (buzz room) = Some t →
        completion pBuzzText w = Normal "Waiting for question…" ∨
        completion pBuzzText w = Normal "Time’s up." ∨
        completion pBuzzText w
          = Normal ((if truthy_string (team_name (team_of t (teams room)))
                     then team_name (team_of t (teams room))
                     else match t with team1 => "Team 1" | team2 => "Team 2" end)
                    +:+ " buzzed first.")).
Proof.
  intros Hmode Hroom. unfold completion, pBuzzText, updatePlayerBuzzButton.
  exec_simpl. run_simpl. rewrite Hmode, Hroom. exec_simpl. run_simpl.
  destruct (bool_decide (phase room = Question)); simpl;
    [|split; [by split|by left]].
  destruct (truthy_num (endAtMs (timer room)) && _); simpl;
    [|split; [by split|by right; left]].
  destruct (firstBuzzTeam (buzz room)) as [t|]; simpl; [|split; [by split|done]].
  split.
  - split; [|done]. intros [= Heq]. by apply buzzed_first_is_not_open in Heq.
  - intros _ t' [= <-]. right. right. by destruct t.
Qed.

Lemma pBuzzText_agrees_with_button_witness :
  completion pBuzzText ann_in_question = Normal "Buzz is open!"
  ↔ btnBuzz_disabled (dom (exec updatePlayerBuzzButton ann_in_question)) = false.
Proof.
  apply (pBuzzText_agrees_with_button ann_in_question
           (default initial (roomData (app ann_in_question)))).
  - vm_compute. reflexivity.
  - apply Some_default. by_evaluation.
Defined.

Lemma ceil_div_1000_bounds a :
  (ceil_div a 1000 - 1) * 1000 < a ≤ ceil_div a 1000 * 1000.
Proof.
  unfold ceil_div.
  pose proof (Z.div_mod (- a) 1000). pose proof (Z.mod_pos_bound (- a) 1000). lia.
Qed.

Lemma updateTimerUI_counts_down w room endAt :
  roomData (app w) = Some room → endAtMs (timer room) = Some endAt → endAt ≠ 0 →
  ∃ k, completion updateTimerUI w = Normal (pretty k) ∧
       0 ≤ k ≤ 999 ∧
       (k = 0 ↔ endAt ≤ date_now w + serverOffsetMs w) ∧
       (0 < k < 999 →
        (k - 1) * 1000 < endAt - (date_now w + serverOffsetMs w) ≤ k * 1000) ∧
       (k = 0 → store_log (exec playerBuzz w) = store_log w).
Proof.
  intros Hroom HendAt Hne.
  exists (clamp (ceil_div (endAt - (date_now w + serverOffsetMs w)) 1000) 0 999).
  pose proof (ceil_div_1000_bounds (endAt - (date_now w + serverOffsetMs w))) as Hc.
  assert (clamp (ceil_div (endAt - (date_now w + serverOffsetMs w)) 1000) 0 999 = 0
          ↔ endAt ≤ date_now w + serverOffsetMs w) as Hzero.
  { unfold clamp. lia. }
  split; [|split; [unfold clamp; lia|split; [done|split]]].
  - unfold completion, updateTimerUI. run_simpl. rewrite Hroom. simpl.
    rewrite HendAt. simpl. destruct (Z.eqb_spec endAt 0); [done|]. by run_simpl.
  - unfold clamp. lia.
  - intros Hk%Hzero. rewrite playerBuzz_gate, Hroom.
    destruct (roomRef (app w)); [|done]. rewrite HendAt. simpl.
    rewrite (bool_decide_eq_false_2 (_ < _)) by lia. by rewrite !andb_false_r.
Qed.

Lemma updateTimerUI_without_deadline w :
  (roomData (app w) ≫= λ r, endAtMs (timer r)) = None ∨
  (roomData (app w) ≫= λ r, endAtMs (timer r)) = Some 0 →
  completion updateTimerUI w =
    Normal (pretty (default 20 (roomData (app w) ≫= λ r, durationSec (timer r)))).
Proof.
  intros Hnone. unfold completion, updateTimerUI. run_simpl.
  by destruct Hnone as [-> | ->].
Qed.

(** X20.  The countdown [updateTimerUI] displays.  With a deadline in the
    snapshot it is a number of seconds between 0 and 999: the time left to the
    deadline on the synchronized clock, rounded up to whole seconds; it is 0
    exactly when the deadline has passed, which is exactly when [playerBuzz]
    refuses a buzz for being late.  Without a deadline (null, or 0) it is the
    snapshot's duration, 20 when absent. *)
Theorem updateTimerUI_shows_remaining_seconds w room :
  roomData (app w) = Some room →
  match endAtMs (timer room) with
  | Some endAt =>
      if bool_decide (endAt = 0)
      then completion updateTimerUI w
             = Normal (pretty (default 20 (durationSec (timer room))))
      else ∃ k, completion updateTimerUI w = Normal (pretty k) ∧
                0 ≤ k ≤ 999 ∧
                (k = 0 ↔ endAt ≤ date_now w + serverOffsetMs w) ∧
                (0 < k < 999 →
                 (k - 1) * 1000 < endAt - (date_now w + serverOffsetMs w) ≤ k * 1000) ∧
                (k = 0 → store_log (exec playerBuzz w) = store_log w)
  | None => completion updateTimerUI w
              = Normal (pretty (default 20 (durationSec (timer room))))
  end.
Proof.
  intros Hroom. destruct (endAtMs (timer room)) as [endAt|] eqn:HendAt.
  - case_bool_decide as Hzero.
    + rewrite updateTimerUI_without_deadline; rewrite Hroom; simpl; [done|].
      right. by rewrite HendAt, Hzero.
    + by apply (updateTimerUI_counts_down w room endAt).
  - rewrite updateTimerUI_without_deadline; rewrite Hroom; simpl; [done|].
    by left.
Qed.

Lemma updateTimerUI_shows_remaining_seconds_witness :
  ∃ k, completion updateTimerUI ann_in_question = Normal (pretty k) ∧
       0 ≤ k ≤ 999 ∧
       (k = 0 ↔ 24000 ≤ date_now ann_in_question + serverOffsetMs ann_in_question) ∧
       (0 < k < 999 →
        (k - 1) * 1000
          < 24000 - (date_now ann_in_question + serverOffsetMs ann_in_question)
          ≤ k * 1000) ∧
       (k = 0 → store_log (exec playerBuzz ann_in_question) = store_log ann_in_question).
Proof.
  pose proof (updateTimerUI_shows_remaining_seconds ann_in_question
    (default initial (roomData (app ann_in_question)))) as H.
  replace (endAtMs (timer (default initial (roomData (app ann_in_question)))))
    with (Some 24000) in H by (vm_compute; reflexivity).
  apply H. apply Some_default. by_evaluation.
Defined.

(** X21.  [uid] is stable per device: a second call returns the identifier of
    the first and leaves [localStorage] as the first left it; the
    identifier is stored under [jeop_player_id], is not empty, is the
    stored one when a non-empty one was stored, and no other key of
    [localStorage] changes. *)
Theorem uid_is_stable rand16 now16 rand16' now16' localStorage :
  uid rand16' now16' (uid rand16 now16 localStorage).2
    = uid rand16 now16 localStorage ∧
  (uid rand16 now16 localStorage).2 !! "jeop_player_id"
    = Some (uid rand16 now16 localStorage).1 ∧
  truthy_string (uid rand16 now16 localStorage).1 = true ∧
  (∀ v, localStorage !! "jeop_player_id" = Some v → v ≠ "" →
        uid rand16 now16 localStorage = (v, localStorage)) ∧
  (∀ k, k ≠ "jeop_player_id" →
        (uid rand16 now16 localStorage).2 !! k = localStorage !! k).
Proof.
  unfold uid.
  destruct (localStorage !! "jeop_player_id") as [v|] eqn:Hv; simpl.
  - destruct (truthy_string v) eqn:Htruthy; simpl.
    + rewrite Hv. simpl. rewrite Htruthy. simpl. repeat split; try done.
      by intros ? [= ->].
    + rewrite lookup_insert_eq. simpl. repeat split; try done.
      * intros v' [= <-] Hne. apply truthy_string_spec in Hne. congruence.
      * intros k Hk. by rewrite lookup_insert_ne.
  - rewrite lookup_insert_eq. simpl. repeat split; try done.
    intros k Hk. by rewrite lookup_insert_ne.
Qed.

(** ** Which event writes what *)

Ltac keeps_stored :=
  unfold dispatch; repeat keeps_step;
  unfold stored; intros; simpl; try done;
  (rewrite lookup_alter; case_decide; simplify_eq; [|done]);
  by destruct (db _ !! _).

(** X22.  Each part of the room document has its writers.  For a client in any
    state: the phase, the active clue and the used flags change only on a
    tile click, a click on the clue card and a return to the board; the
    buzz record only on a buzz, a tile click, a return to the board and a
    buzz reset; the timer only on a tile click, a return to the board and
    a timer reset; the teams only on an award or a penalty; the players
    only on a join; the creation time never -- creating and ending a room
    apart, which replace and remove the document. *)
Theorem each_field_has_its_writers e path w :
  (writes_board e = false →
   stored (λ d, (phase d, activeClueKey d, boardUsed d)) path (exec (dispatch e) w)
   = stored (λ d, (phase d, activeClueKey d, boardUsed d)) path w) ∧
  (writes_buzz e = false →
   stored buzz path (exec (dispatch e) w) = stored buzz path w) ∧
  (writes_timer e = false →
   stored timer path (exec (dispatch e) w) = stored timer path w) ∧
  (writes_teams e = false →
   stored teams path (exec (dispatch e) w) = stored teams path w) ∧
  (writes_players e = false →
   stored players path (exec (dispatch e) w) = stored players path w) ∧
  (replaces_document e = false →
   stored createdAt path (exec (dispatch e) w) = stored createdAt path w).
Proof.
  repeat split; intros He.
  - apply (λ H : keeps (λ w', stored _ path w' = stored _ path w) (dispatch e), H w eq_refl).
    destruct e; try done; keeps_stored.
  - apply (λ H : keeps (λ w', stored _ path w' = stored _ path w) (dispatch e), H w eq_refl).
    destruct e; try done; keeps_stored.
  - apply (λ H : keeps (λ w', stored _ path w' = stored _ path w) (dispatch e), H w eq_refl).
    destruct e; try done; keeps_stored.
  - apply (λ H : keeps (λ w', stored _ path w' = stored _ path w) (dispatch e), H w eq_refl).
    destruct e; try done; keeps_stored.
  - apply (λ H : keeps (λ w', stored _ path w' = stored _ path w) (dispatch e), H w eq_refl).
    destruct e; try done; keeps_stored.
  - apply (λ H : keeps (λ w', stored _ path w' = stored _ path w) (dispatch e), H w eq_refl).
    destruct e; try done; keeps_stored.
Qed.

(** ** What every stored document satisfies *)

Lemma all_settled_alter (g : Room → Room) path w :
  (∀ d, settled d → settled (g d)) →
  all_settled w → all_settled (with_db (alter g path) w).
Proof.
  intros Hg Hall p d. simpl.
  intros [[_ (d0 & Hd0 & ->)]|[_ Hd]]%lookup_alter_Some; eauto.
Qed.

Lemma settled_initial now : settled (resolve_room now initial).
Proof. split; simpl; eauto; done. Qed.

Lemma dispatch_keeps_modal e :
  keeps (λ w, modal_never_populated (client_of w)) (dispatch e).
Proof.
  assert (keeps (λ w, modal_never_populated (client_of w)) (dispatch clueCard_click))
    as Hcard.
  { intros w Hw. unfold exec. rewrite clueCard_click_noop; [done|]. apply Hw. }
  destruct e; try exact Hcard; clear Hcard; unfold dispatch; repeat keeps_step.
  all: by intros ? [? ?].
Qed.

Lemma dispatch_keeps_settled e w :
  modal_never_populated (client_of w) → all_settled w →
  all_settled (exec (dispatch e) w).
Proof.
  intros [Hcard Hclue] Hall. simpl in Hcard, Hclue.
  assert (∀ t, keeps all_settled (adjustScore t 0)) as Hadjust.
  { intros t. repeat keeps_step; try done.
    intros w0. apply all_settled_alter. intros d [? ? ? ? ? Hscore1 Hscore2].
    destruct t; split; simpl; try done.
    - by rewrite Hscore1.
    - by rewrite Hscore2. }
  destruct (decide (e = btnBuzz_click)) as [->|Hbuzz].
  { unfold dispatch. rewrite exec_bind. simpl.
    destruct (btnBuzz_disabled (dom w)); [done|]. rewrite exec_try_catch. intros p d.
    destruct (playerBuzz_store w) as [->|(room & ref & _ & _ & _ & _ & _ & ->)];
      [apply Hall|].
    destruct (buzz_transaction_store ref (teamId (app w)) w) as [_ ->].
    destruct (db w !! ref) as [d0|] eqn:Hd0; [|apply Hall].
    destruct (truthy_team _); [apply Hall|].
    intros [[<- <-]|[_ Hd]]%lookup_insert_Some; [|by eapply Hall].
    destruct (Hall _ _ Hd0). split; simpl; eauto. }
  destruct e; try done.
  all: try (unfold dispatch, exec; rewrite run_bind; unfold activeClue_value;
            rewrite run_bind; simpl; rewrite Hclue; by apply Hadjust).
  all: try (unfold exec; rewrite clueCard_click_noop by done; exact Hall).
  all: revert w Hcard Hclue Hall;
    match goal with |- ∀ w, _ → _ → all_settled w → all_settled (exec ?m w) =>
      cut (keeps all_settled m); [intros Hk w _ _; apply Hk|] end.
  all: unfold dispatch; repeat keeps_step; try done.
  all: intros w0.
  all: try (apply all_settled_alter; intros d0 []; split; simpl; eauto; done).
  - intros Hall p d. simpl.
    intros [[<- <-]|[_ Hd]]%lookup_insert_Some; eauto using settled_initial.
  - intros Hall p d. simpl. intros [_ Hd]%lookup_delete_Some. eauto.
Qed.

Lemma reachable_all_settled s p d :
  reachable s → s_db s !! p = Some d → settled d.
Proof.
  intros [ls ->]. revert p d. induction ls as [|l ls IH] using rev_ind; [done|].
  rewrite run_from_snoc.
  destruct (reachable_room_inv (run_from initial_system ls)) as [_ Hmodal];
    [by eexists|].
  destruct l as [hidden disabled device|i env e]; simpl; [done|].
  destruct (s_clients _ !! i) as [c|] eqn:Hi; [|done]. simpl.
  apply (dispatch_keeps_settled e (world_of (run_from initial_system ls) c env)).
  - rewrite Forall_lookup in Hmodal. apply (Hmodal i c Hi).
  - exact IH.
Qed.

(** X23.  In every reachable state a document that records a winner also
    records the time of the buzz, as a time of the server's clock and
    never as the placeholder. *)
Theorem recorded_winner_has_server_time s path d t :
  reachable s → s_db s !! path = Some d → firstBuzzTeam (buzz d) = Some t →
  ∃ ms, firstBuzzAt (buzz d) = Some (Millis ms).
Proof.
  intros Hs Hd Ht. apply (settled_buzz d (reachable_all_settled s path d Hs Hd)).
  by rewrite Ht.
Qed.

Lemma recorded_winner_has_server_time_witness :
  ∃ ms, firstBuzzAt (buzz (doc_at sample_room
          (run_from initial_system (clue_opened ++ ann_buzzes)))) = Some (Millis ms).
Proof.
  apply (recorded_winner_has_server_time
           (run_from initial_system (clue_opened ++ ann_buzzes)) sample_room _ team1).
  - by eexists.
  - apply Some_default. by_evaluation.
  - vm_compute. reflexivity.
Defined.




